(** * ConnectWise export formatter: the record extractor, verified

    A shallow embedding of [original.py] (the brace-aware line scanner, the
    IDLE/ACCUMULATING line loop of [process_file], the record validator and
    the file-name allocator) together with the properties its specification
    states about them.

    Conventions.
    - A Python [str] is a list of characters; characters are 8-bit code points
      (the Latin-1 range), with Python's own classification of that range for
      [str.isspace] and the regular-expression classes [\w] and [\s].
    - Python integers are [Z] where they can be negative (the brace balance)
      and [nat] where they count upwards from zero.
    - [json.loads], the PDF back end and the command-line arguments are not
      part of the program text; they are parameters of the line loop. *)

From Stdlib Require Import List Ascii String ZArith Lia Bool Arith PeanoNat.
From Stdlib Require Decimal DecimalString DecimalNat Finite.
From Stdlib Require Import Floats.SpecFloat.
Import ListNotations.

Open Scope char_scope.
Open Scope list_scope.
Open Scope nat_scope.

(** ** Python strings *)

Definition str := list ascii.

Definition lit (s : string) : str := list_ascii_of_string s.

(** The double quote. *)
Definition dq : ascii := "034".
(** The backslash. *)
Definition bs : ascii := "\".

(** [jlit] reads a literal in which the apostrophe stands for the double
    quote, so that JSON text can be written down legibly. *)
Definition jlit (s : string) : str :=
  map (fun c => if Ascii.eqb c "'" then dq else c) (lit s).

(** The line feed, and a line of the input as the file iterator yields it. *)
Definition nl : ascii := "010".

Definition ln (s : string) : str := jlit s ++ [nl].

(** [str.isspace] on one character (code points below 256). *)
Definition isspace (c : ascii) : bool :=
  let n := nat_of_ascii c in
  ((9 <=? n) && (n <=? 13)) || ((28 <=? n) && (n <=? 32))
  || (n =? 133) || (n =? 160).

(** [Py_UNICODE_ISALNUM] on one character (code points below 256). *)
Definition isalnum (c : ascii) : bool :=
  let n := nat_of_ascii c in
  ((48 <=? n) && (n <=? 57)) || ((65 <=? n) && (n <=? 90))
  || ((97 <=? n) && (n <=? 122))
  || (n =? 170) || (n =? 178) || (n =? 179) || (n =? 181)
  || (n =? 185) || (n =? 186) || ((188 <=? n) && (n <=? 190))
  || ((192 <=? n) && (n <=? 214)) || ((216 <=? n) && (n <=? 246))
  || ((248 <=? n) && (n <=? 255)).

(** The regular-expression class [\w]. *)
Definition is_word (c : ascii) : bool := isalnum c || Ascii.eqb c "_".

Fixpoint lstrip (s : str) : str :=
  match s with
  | [] => []
  | c :: r => if isspace c then lstrip r else s
  end.

Definition rstrip (s : str) : str := rev (lstrip (rev s)).

(** [s.strip()] *)
Definition strip (s : str) : str := rstrip (lstrip s).

(** [s.count(c)] for a one-character [c]. *)
Fixpoint count (c : ascii) (s : str) : nat :=
  match s with
  | [] => 0
  | d :: r => (if Ascii.eqb d c then 1 else 0) + count c r
  end.

(** [c in s] for a one-character [c]. *)
Definition contains (c : ascii) (s : str) : bool := existsb (Ascii.eqb c) s.

Fixpoint startswith (p s : str) : bool :=
  match p, s with
  | [], _ => true
  | _ :: _, [] => false
  | a :: p', b :: s' => Ascii.eqb a b && startswith p' s'
  end.

(** [s.endswith(c)] for a one-character [c]. *)
Fixpoint endswith (c : ascii) (s : str) : bool :=
  match s with
  | [] => false
  | d :: r => match r with [] => Ascii.eqb d c | _ :: _ => endswith c r end
  end.

(** [s.replace(old, new)]: occurrences of [old] are replaced from the left,
    without overlap.  [skip] counts the characters of a matched occurrence
    that are still to be passed over. *)
Fixpoint replace_from (old new : str) (skip : nat) (s : str) : str :=
  match s with
  | [] => match old with [] => new | _ :: _ => [] end
  | c :: r =>
      match skip with
      | S k => replace_from old new k r
      | O =>
          match old with
          | [] => new ++ c :: replace_from old new 0 r
          | _ :: old' =>
              if startswith old s
              then new ++ replace_from old new (List.length old') r
              else c :: replace_from old new 0 r
          end
      end
  end.

Definition replace (old new s : str) : str := replace_from old new 0 s.

(** ** The brace-aware scanner *)

(** [re.sub] with the pattern of line 168 (a double quote, any run of
    characters other than the double quote, a double quote) and the empty
    replacement.  At a double quote the pattern matches exactly when a later
    double quote exists, and then it consumes the text up to and including the
    nearest one; [inside] is set while such a match is being consumed. *)
Fixpoint sub_quoted (inside : bool) (s : str) : str :=
  match s with
  | [] => []
  | c :: r =>
      if inside then
        if Ascii.eqb c dq then sub_quoted false r else sub_quoted true r
      else if Ascii.eqb c dq && contains dq r then sub_quoted true r
      else c :: sub_quoted false r
  end.

Definition re_sub_quoted (s : str) : str := sub_quoted false s.

(** The text in which the braces are counted. *)
Definition clean_line (line : str) : str :=
  re_sub_quoted (replace [bs; dq] [] line).

(** [count_braces_ignoring_strings(line)], returning
    [(net_change, has_open_brace)]. *)
Definition count_braces_ignoring_strings (line : str) : Z * bool :=
  let clean := clean_line line in
  let open_count := count "{" clean in
  let close_count := count "}" clean in
  ((Z.of_nat open_count - Z.of_nat close_count)%Z, contains "{" clean).

(** *** The scanner as the specification words it *)

(** Deleting every escaped-quote sequence: a character goes exactly when it is
    a backslash standing before a double quote, or a double quote standing
    after a backslash. *)
Fixpoint delete_escaped_quotes (prev : option ascii) (s : str) : str :=
  match s with
  | [] => []
  | c :: r =>
      let before_quote :=
        Ascii.eqb c bs && match r with d :: _ => Ascii.eqb d dq | [] => false end in
      let after_backslash :=
        Ascii.eqb c dq && match prev with Some p => Ascii.eqb p bs | None => false end in
      if before_quote || after_backslash
      then delete_escaped_quotes (Some c) r
      else c :: delete_escaped_quotes (Some c) r
  end.





(** ** Decoded JSON values *)

(** What [json.loads] returns: [None], [bool], [int], [float], [str], [list]
    and [dict].  A [dict] is kept as its items in insertion order. *)
#[local] Unset Elimination Schemes.
Inductive json :=
| JNull
| JBool (b : bool)
| JInt (n : Z)
| JFloat (f : spec_float)
| JStr (s : str)
| JList (items : list json)
| JDict (items : list (str * json)).
#[local] Set Elimination Schemes.

Definition str_eq_dec : forall a b : str, {a = b} + {a <> b} :=
  list_eq_dec ascii_dec.

(** [d.get(key)] on the items of a dict. *)
Fixpoint lookup (key : str) (items : list (str * json)) : option json :=
  match items with
  | [] => None
  | (k, v) :: r => if str_eq_dec k key then Some v else lookup key r
  end.

(** [key in d] *)
Definition has_key (key : str) (items : list (str * json)) : bool :=
  match lookup key items with Some _ => true | None => false end.

(** Python's truth value of a decoded value. *)
Definition truthy (v : json) : bool :=
  match v with
  | JNull => false
  | JBool b => b
  | JInt n => negb (n =? 0)%Z
  | JFloat f => match f with S754_zero _ => false | _ => true end
  | JStr s => match s with [] => false | _ :: _ => true end
  | JList l => match l with [] => false | _ :: _ => true end
  | JDict l => match l with [] => false | _ :: _ => true end
  end.

(** Exceptions a call can raise. *)
Inductive exn := TypeError.

Inductive result (A : Type) :=
| Return (a : A)
| Raise (e : exn).
Arguments Return {A} a.
Arguments Raise {A} e.

(** [len(v)]: strings, lists and dicts have a length, nothing else has. *)
Definition py_len (v : json) : result nat :=
  match v with
  | JStr s => Return (List.length s)
  | JList l => Return (List.length l)
  | JDict l => Return (List.length l)
  | JNull | JBool _ | JInt _ | JFloat _ => Raise TypeError
  end.

(** ** The validator *)

(** Line 54: ['name' in data and data['name']], as a truth value. *)
Definition has_name (items : list (str * json)) : bool :=
  match lookup (lit "name") items with
  | Some v => truthy v
  | None => false
  end.

(** Line 56: ['questions' in data and len(data['questions']) > 0]. *)
Definition has_questions (items : list (str * json)) : result bool :=
  match lookup (lit "questions") items with
  | None => Return false
  | Some q =>
      match py_len q with
      | Return n => Return (0 <? n)
      | Raise e => Raise e
      end
  end.

(** [is_valid_record(data)].  The three flags are computed in the order of
    lines 54 to 56, before any of them is used, so [len] is applied to a
    present [questions] value whatever the other two flags are. *)
Definition is_valid_record (data : json) : result bool :=
  match data with
  | JDict items =>
      match items with
      | [] => Return false
      | _ :: _ =>
          let has_company := has_key (lit "company") items in
          match has_questions items with
          | Raise e => Raise e
          | Return has_questions =>
              Return (has_name items || (has_company && has_questions))
          end
      end
  | _ => Return false
  end.

(** The verdict as the specification words it. *)
Definition nonempty_sequence (v : json) : Prop :=
  exists x rest, v = JList (x :: rest).

Definition spec_valid (data : json) : Prop :=
  exists items,
    data = JDict items /\ items <> [] /\
    ((exists v, lookup (lit "name") items = Some v /\ truthy v = true) \/
     (has_key (lit "company") items = true /\
      exists q, lookup (lit "questions") items = Some q /\ nonempty_sequence q)).

(** The same with [len] deciding what a non-empty [questions] value is. *)
Definition has_length (v : json) : Prop :=
  match v with
  | JStr _ | JList _ | JDict _ => True
  | _ => False
  end.

Definition sized_valid (data : json) : Prop :=
  exists items,
    data = JDict items /\ items <> [] /\
    ((exists v, lookup (lit "name") items = Some v /\ truthy v = true) \/
     (has_key (lit "company") items = true /\
      exists q n, lookup (lit "questions") items = Some q /\
                  py_len q = Return n /\ 0 < n)).

(** ** File names *)

(** The [re.sub] of line 23: every character that is not a word character,
    white space or a hyphen is deleted. *)
Definition sanitize (text : str) : str :=
  filter (fun c => is_word c || isspace c || Ascii.eqb c "-") text.

(** [clean_filename(text)] *)
Definition clean_filename (text : str) : str :=
  match text with
  | [] => lit "Untitled"
  | _ :: _ =>
      let clean := sanitize text in
      firstn 100 (strip clean)
  end.

(** [str(n)] for a count. *)
Definition decimal (n : nat) : str :=
  lit (DecimalString.NilEmpty.string_of_uint (Nat.to_uint n)).

(** [os.path.join(a, b)] (POSIX). *)
Definition path_join (a b : str) : str :=
  if startswith ["/"] b then b
  else match a with
       | [] => b
       | _ :: _ => if endswith "/" a then a ++ b else a ++ "/" :: b
       end.

(** [os.path.exists] over the paths that exist. *)
Definition path_exists (files : list str) (p : str) : bool :=
  if in_dec str_eq_dec p files then true else false.

(** The name probed in round [k]: [base.pdf] first, then [base_1.pdf],
    [base_2.pdf], ... *)
Definition candidate (safe_name : str) (k : nat) : str :=
  match k with
  | O => safe_name ++ lit ".pdf"
  | S _ => safe_name ++ "_" :: decimal k ++ lit ".pdf"
  end.

(** The loop of lines 241 to 244, entered with [fname] and [count]; [fuel]
    bounds the number of rounds. *)
Fixpoint probe (fuel : nat) (files : list str) (outdir safe_name fname : str)
    (count : nat) : option str :=
  match fuel with
  | O => None
  | S fuel' =>
      if path_exists files (path_join outdir fname)
      then probe fuel' files outdir safe_name
             (safe_name ++ "_" :: decimal count ++ lit ".pdf") (S count)
      else Some fname
  end.

(** Lines 238 to 244: the file name chosen for [safe_name].  One round more
    than there are files is always enough ([allocate_total]). *)
Definition allocate (files : list str) (outdir safe_name : str) : option str :=
  probe (S (List.length files)) files outdir safe_name
    (safe_name ++ lit ".pdf") 1.

(** ** The line loop of [process_file] *)

(** What [json.loads] does with a text: it returns a value or raises
    [JSONDecodeError], the exception that line 257 catches. *)
Inductive decoded :=
| Decoded (data : json)
| JSONDecodeError (msg : str).

(** What the run does that can be observed, in order. *)
Inductive event :=
| Handed (title : str) (data : json)
    (* [is_valid_record(data)] is called while [title] is pending *)
| Rendered (out_path title : str) (data : json) (ok : bool)
    (* [generate_pdf(data, out_path, title)] returned [ok] *)
| LogProgress (records lineno : nat)
| LogSkipped (lineno : nat)
| LogParseError (lineno : nat) (context msg : str).

(** The local variables of [process_file], the files that exist and the
    events so far. *)
Record state := mkState {
  buffer : list str;
  brace_balance : Z;
  in_json : bool;
  potential_title : str;
  records_created : nat;
  lines_read : nat;
  files : list str;
  events : list event
}.

Definition initial (fs : list str) : state :=
  {| buffer := []; brace_balance := 0%Z; in_json := false;
     potential_title := lit "Untitled"; records_created := 0;
     lines_read := 0; files := fs; events := [] |}.

Definition count_line (s : state) : state :=
  mkState (buffer s) (brace_balance s) (in_json s) (potential_title s)
    (records_created s) (S (lines_read s)) (files s) (events s).

Definition open_buffer (line : str) (net_change : Z) (s : state) : state :=
  mkState [line] (0 + net_change)%Z true (potential_title s)
    (records_created s) (lines_read s) (files s) (events s).

Definition set_title (t : str) (s : state) : state :=
  mkState (buffer s) (brace_balance s) (in_json s) t
    (records_created s) (lines_read s) (files s) (events s).

Definition append_line (line : str) (net_change : Z) (s : state) : state :=
  mkState (buffer s ++ [line]) (brace_balance s + net_change)%Z (in_json s)
    (potential_title s) (records_created s) (lines_read s) (files s)
    (events s).

Definition leave_json (s : state) : state :=
  mkState (buffer s) (brace_balance s) false (potential_title s)
    (records_created s) (lines_read s) (files s) (events s).

Definition emit (e : event) (s : state) : state :=
  mkState (buffer s) (brace_balance s) (in_json s) (potential_title s)
    (records_created s) (lines_read s) (files s) (events s ++ [e]).

Definition set_files (fs : list str) (s : state) : state :=
  mkState (buffer s) (brace_balance s) (in_json s) (potential_title s)
    (records_created s) (lines_read s) fs (events s).

Definition count_record (s : state) : state :=
  mkState (buffer s) (brace_balance s) (in_json s) (potential_title s)
    (S (records_created s)) (lines_read s) (files s) (events s).

(** How the body of the loop ends for one line: it falls through to the next
    line, or an exception leaves [process_file], or (never, see
    [allocate_total]) the probing loop does not end. *)
Inductive outcome :=
| Normal (s : state)
| Uncaught (e : exn) (s : state)
| Diverged (s : state).

Definition state_of (o : outcome) : state :=
  match o with Normal s | Uncaught _ s | Diverged s => s end.

(** Lines 227 to 229: the text handed to [json.loads]. *)
Definition full_text (buf : list str) : str :=
  let full_str := strip (List.concat buf) in
  if endswith "," full_str then removelast full_str else full_str.

(** Whether a line is a title candidate: not blank, no brace, fewer than 150
    characters once trimmed. *)
Definition qualifies (line : str) : bool :=
  match strip line with
  | [] => false
  | _ :: _ =>
      negb (contains "{" (strip line)) && negb (contains "}" (strip line))
      && (List.length (strip line) <? 150)
  end.

(** What a line was to the loop: a line met outside any object, a line that
    went by while a buffer was open, or the line that closed a buffer. *)
Inductive mark :=
| IdleLine (line : str)
| BufferLine
| Finalized.

Definition mark_of (before : state) (line : str) (after : state) : mark :=
  if in_json before
  then if in_json after then BufferLine else Finalized
  else IdleLine line.

(** The pending title as the specification words it, read off the lines so
    far, the latest first: the trimmed text of the latest title candidate met
    outside any object since the last record was closed, and the sentinel
    when there is none. *)
Fixpoint pending_title_spec (latest_first : list mark) : str :=
  match latest_first with
  | [] => lit "Untitled"
  | Finalized :: _ => lit "Untitled"
  | BufferLine :: past => pending_title_spec past
  | IdleLine line :: past =>
      if qualifies line then strip line else pending_title_spec past
  end.

Section Run.

(** [json.loads] *)
Variable json_loads : str -> decoded.
(** [generate_pdf(record, filename, title_header)] on the files that exist:
    its boolean and the files that exist afterwards.  Its body is one [try]
    whose handler returns [False], so it raises nothing. *)
Variable generate_pdf : json -> str -> str -> list str -> bool * list str.
(** [OUTPUT_DIR] *)
Variable OUTPUT_DIR : str.

(** Lines 236 to 251: a valid record is rendered. *)
Definition render_record (data : json) (s : state) : outcome :=
  let safe_name := clean_filename (potential_title s) in
  match allocate (files s) OUTPUT_DIR safe_name with
  | None => Diverged s
  | Some fname =>
      let out_path := path_join OUTPUT_DIR fname in
      let '(ok, fs) :=
        generate_pdf data out_path (potential_title s) (files s) in
      let s := emit (Rendered out_path (potential_title s) data ok)
                 (set_files fs s) in
      if ok then
        let s := count_record s in
        if records_created s mod 10 =? 0
        then Normal (emit (LogProgress (records_created s) (lines_read s)) s)
        else Normal s
      else Normal s
  end.

(** Lines 224 to 261: the buffer is closed and resolved. *)
Definition finalize (s : state) : outcome :=
  let s := leave_json s in
  let full_str := full_text (buffer s) in
  let resolved :=
    match json_loads full_str with
    | Decoded data =>
        let s := emit (Handed (potential_title s) data) s in
        match is_valid_record data with
        | Raise e => Uncaught e s
        | Return true => render_record data s
        | Return false => Normal (emit (LogSkipped (lines_read s)) s)
        end
    | JSONDecodeError msg =>
        Normal (emit (LogParseError (lines_read s) (firstn 50 full_str) msg) s)
    end in
  match resolved with
  | Normal s => Normal (set_title (lit "Untitled") s)
  | o => o
  end.

(** The body of the loop of line 189 for one line. *)
Definition step (s : state) (line : str) : outcome :=
  let s := count_line s in
  let stripped := strip line in
  match stripped with
  | [] => Normal s
  | _ :: _ =>
      let '(net_change, has_open) := count_braces_ignoring_strings line in
      if negb (in_json s) then
        if has_open then Normal (open_buffer line net_change s)
        else if negb (contains "{" stripped) && negb (contains "}" stripped)
                && (List.length stripped <? 150)
             then Normal (set_title stripped s)
             else Normal s
      else
        let s := append_line line net_change s in
        if (brace_balance s <=? 0)%Z then finalize s else Normal s
  end.

Fixpoint run (s : state) (lines : list str) : outcome :=
  match lines with
  | [] => Normal s
  | line :: rest =>
      match step s line with
      | Normal s' => run s' rest
      | o => o
      end
  end.

(** [process_file] from line 180 on: the loop over the lines of the input,
    with [fs] the files that exist when it starts. *)
Definition process_file (fs : list str) (lines : list str) : outcome :=
  run (initial fs) lines.

(** The marks of the lines of a run, the latest first. *)
Fixpoint history (s : state) (lines : list str) (past : list mark)
  : list mark :=
  match lines with
  | [] => past
  | line :: rest =>
      match step s line with
      | Normal s' => history s' rest (mark_of s line s' :: past)
      | _ => past
      end
  end.

End Run.

(** The records handed to validation, each with the title pending then. *)
Fixpoint handed (evs : list event) : list (str * json) :=
  match evs with
  | [] => []
  | Handed t d :: r => (t, d) :: handed r
  | _ :: r => handed r
  end.

(** The documents written. *)
Fixpoint documents (evs : list event) : list str :=
  match evs with
  | [] => []
  | Rendered p _ _ true :: r => p :: documents r
  | _ :: r => documents r
  end.

(** ** A decoder and a renderer to run the loop with

    The worked examples need some [json.loads] and some [generate_pdf].
    [Sample.loads] decodes the JSON fragment those examples use (objects,
    arrays, strings without escapes, integers and the three literals);
    [Sample.writes] is a renderer that writes its file and succeeds, and
    [Sample.fails] one that writes nothing and fails. *)
Module Sample.

Definition is_ws (c : ascii) : bool :=
  Ascii.eqb c " " || Ascii.eqb c "009" || Ascii.eqb c "010" || Ascii.eqb c "013".

Fixpoint skip_ws (s : str) : str :=
  match s with
  | [] => []
  | c :: r => if is_ws c then skip_ws r else s
  end.

(** The text up to the closing quote, and what follows it. *)
Fixpoint string_body (s : str) : option (str * str) :=
  match s with
  | [] => None
  | c :: r =>
      if Ascii.eqb c dq then Some ([], r)
      else if Ascii.eqb c bs then None
      else match string_body r with
           | Some (body, rest) => Some (c :: body, rest)
           | None => None
           end
  end.

Definition digit (c : ascii) : option Z :=
  let n := nat_of_ascii c in
  if (48 <=? n) && (n <=? 57) then Some (Z.of_nat (n - 48)) else None.

Fixpoint digits (acc : Z) (s : str) : Z * str :=
  match s with
  | [] => (acc, [])
  | c :: r =>
      match digit c with
      | Some d => digits (10 * acc + d)%Z r
      | None => (acc, s)
      end
  end.

Definition number (s : str) : option (Z * str) :=
  match s with
  | c :: r =>
      match digit c with
      | Some _ => Some (digits 0 s)
      | None => None
      end
  | [] => None
  end.

(** [d[k] = v] on the items of a dict. *)
Fixpoint dict_set (k : str) (v : json) (items : list (str * json))
  : list (str * json) :=
  match items with
  | [] => [(k, v)]
  | (k', v') :: r =>
      if str_eq_dec k' k then (k', v) :: r else (k', v') :: dict_set k v r
  end.

Definition literal (word : string) (v : json) (s : str) : option (json * str) :=
  if startswith (lit word) s
  then Some (v, skipn (List.length (lit word)) s)
  else None.

Fixpoint value (fuel : nat) (s : str) : option (json * str) :=
  match fuel with
  | O => None
  | S fuel =>
      match skip_ws s with
      | [] => None
      | c :: r =>
          if Ascii.eqb c "{" then
            match skip_ws r with
            | d :: r' =>
                if Ascii.eqb d "}" then Some (JDict [], r')
                else members fuel (skip_ws r) []
            | [] => None
            end
          else if Ascii.eqb c "[" then
            match skip_ws r with
            | d :: r' =>
                if Ascii.eqb d "]" then Some (JList [], r')
                else elements fuel (skip_ws r) []
            | [] => None
            end
          else if Ascii.eqb c dq then
            match string_body r with
            | Some (body, rest) => Some (JStr body, rest)
            | None => None
            end
          else if Ascii.eqb c "-" then
            match number r with
            | Some (n, rest) => Some (JInt (- n), rest)
            | None => None
            end
          else if Ascii.eqb c "t" then literal "true" (JBool true) (c :: r)
          else if Ascii.eqb c "f" then literal "false" (JBool false) (c :: r)
          else if Ascii.eqb c "n" then literal "null" JNull (c :: r)
          else match number (c :: r) with
               | Some (n, rest) => Some (JInt n, rest)
               | None => None
               end
      end
  end
with elements (fuel : nat) (s : str) (acc : list json) : option (json * str) :=
  match fuel with
  | O => None
  | S fuel =>
      match value fuel s with
      | Some (v, rest) =>
          match skip_ws rest with
          | c :: r =>
              if Ascii.eqb c "," then elements fuel r (acc ++ [v])
              else if Ascii.eqb c "]" then Some (JList (acc ++ [v]), r)
              else None
          | [] => None
          end
      | None => None
      end
  end
with members (fuel : nat) (s : str) (acc : list (str * json))
  : option (json * str) :=
  match fuel with
  | O => None
  | S fuel =>
      match skip_ws s with
      | q :: r =>
          if Ascii.eqb q dq then
            match string_body r with
            | Some (key, rest) =>
                match skip_ws rest with
                | c :: r1 =>
                    if Ascii.eqb c ":" then
                      match value fuel r1 with
                      | Some (v, rest') =>
                          match skip_ws rest' with
                          | e :: r2 =>
                              if Ascii.eqb e ","
                              then members fuel r2 (dict_set key v acc)
                              else if Ascii.eqb e "}"
                              then Some (JDict (dict_set key v acc), r2)
                              else None
                          | [] => None
                          end
                      | None => None
                      end
                    else None
                | [] => None
                end
            | None => None
            end
          else None
      | [] => None
      end
  end.

Definition loads (s : str) : decoded :=
  match value (2 * List.length s + 2) s with
  | Some (v, rest) =>
      match skip_ws rest with
      | [] => Decoded v
      | _ :: _ => JSONDecodeError (lit "Extra data")
      end
  | None => JSONDecodeError (lit "Expecting value")
  end.

Definition writes (_ : json) (path _ : str) (fs : list str)
  : bool * list str := (true, path :: fs).

Definition fails (_ : json) (_ _ : str) (fs : list str)
  : bool * list str := (false, fs).

End Sample.

(** ** Notions the properties are stated with *)

(** The net change and the flag read off a text. *)
Definition braces (s : str) : Z * bool :=
  ((Z.of_nat (count "{" s) - Z.of_nat (count "}" s))%Z, contains "{" s).

(** Whether the character before is a backslash. *)
Definition after_backslash (prev : option ascii) : bool :=
  match prev with Some p => Ascii.eqb p bs | None => false end.

(** What a candidate adds to the sanitised title. *)
Definition suffix (k : nat) : str :=
  match k with
  | O => lit ".pdf"
  | S _ => "_" :: decimal k ++ lit ".pdf"
  end.

(** Two states of two runs that agree on all that the extraction reads. *)
Definition same_extraction (a b : state) : Prop :=
  buffer a = buffer b /\
  brace_balance a = brace_balance b /\
  in_json a = in_json b /\
  potential_title a = potential_title b /\
  lines_read a = lines_read b /\
  handed (events a) = handed (events b).

Definition same_outcome (x y : outcome) : Prop :=
  match x, y with
  | Normal a, Normal b => same_extraction a b
  | Uncaught e a, Uncaught e' b =>
      e = e' /\ handed (events a) = handed (events b)
  | _, _ => False
  end.

(** The input of the specification's example: a title line, one complete
    object on a single line, a blank line. *)
Definition single_line_input : list str :=
  [ln "X-ish title";
   ln "{ 'name': 'X', 'questions': [{'question':'Q1','answer':'A1'}] }";
   [nl]].

(** The lines of a record whose [questions] entry is a number, and a line
    after it. *)
Definition numeric_questions_input : list str :=
  [ln "{"; ln "'questions': 5"; ln "}"; ln "Next title"].

(** ** The text of a document

    [generate_pdf] hands its texts to the PDF library; what is modelled here
    is how it gets those texts from the record: [clean_text], [get_safe_val],
    the rows of the metadata table and the rows of the question table. *)

Section DocumentText.

(** [str(v)] for a float, a list or a dict, whose spelling Python's [repr]
    decides. *)
Variable py_repr : json -> str.

(** [str(v)] *)
Definition py_str (v : json) : str :=
match v with
| JNull => lit "None"
| JBool true => lit "True"
| JBool false => lit "False"
| JInt n => lit (DecimalString.NilEmpty.string_of_int (Z.to_int n))
| JStr s => s
| JFloat _ | JList _ | JDict _ => py_repr v
end.

(** The four replacements of line 29, in their order. *)
Definition escape_markup (s : str) : str :=
replace [nl] (lit "<br/>")
  (replace [">"] (lit "&gt;")
     (replace ["<"] (lit "&lt;")
        (replace ["&"] (lit "&amp;") s))).

(** [clean_text(text)] *)
Definition clean_text (text : json) : str :=
match text with
| JNull => []
| _ => escape_markup (py_str text)
end.

(** [d.get(key, default)] on the items of a dict. *)
Definition get_default (key : str) (default : json) (items : list (str * json))
  : json :=
match lookup key items with
| Some v => v
| None => default
end.

(** [get_safe_val(record, *keys)]: the loop of lines 34 to 38 from the value
    reached so far, then line 39.  [d.get(k)] gives [None] for a key that is
    not there. *)
Fixpoint get_safe_val (val : json) (keys : list str) : str :=
match keys with
| [] => match val with JNull => [] | _ => py_str val end
| k :: rest =>
    match val with
    | JDict items => get_safe_val (get_default k JNull items) rest
    | _ => []
    end
end.

(** Lines 95 to 104: the rows of the metadata table of a record that is a
    dict, the empty ones left out. *)
Definition meta_data (items : list (str * json)) : list (str * str) :=
filter (fun row => match snd row with [] => false | _ :: _ => true end)
  [(lit "Name:", clean_text (get_default (lit "name") (JStr []) items));
   (lit "Company:",
    clean_text (JStr (get_safe_val (JDict items) [lit "company"; lit "name"])));
   (lit "Site:",
    clean_text (JStr (get_safe_val (JDict items) [lit "site"; lit "name"])));
   (lit "Type:",
    clean_text (JStr (get_safe_val (JDict items) [lit "type"; lit "name"])));
   (lit "Status:",
    clean_text (JStr (get_safe_val (JDict items) [lit "status"; lit "name"])))].

(** Lines 133 to 137 for one entry of [questions]. *)
Definition qa_row (q : json) : list (str * str) :=
match q with
| JDict entry =>
    let q_txt := strip (py_str (get_default (lit "question") (JStr []) entry)) in
    let a_txt := strip (py_str (get_default (lit "answer") (JStr []) entry)) in
    match q_txt with
    | [] => []
    | _ :: _ => [(q_txt, a_txt)]
    end
| _ => []
end.

(** Lines 129 to 137: the question and answer texts of a record that is a
    dict. *)
Definition valid_qa (items : list (str * json)) : list (str * str) :=
match get_default (lit "questions") (JList []) items with
| JList questions => flat_map qa_row questions
| _ => []
end.

(** Line 90: the heading, before it is escaped. *)
Definition display_title (items : list (str * json)) (title_header : str)
  : json :=
match title_header with
| _ :: _ => JStr title_header
| [] => get_default (lit "name") (JStr (lit "Configuration Report")) items
end.

End DocumentText.

(** What one character becomes in escaped text. *)
Definition escape_char (c : ascii) : str :=
if Ascii.eqb c "&" then lit "&amp;"
else if Ascii.eqb c "<" then lit "&lt;"
else if Ascii.eqb c ">" then lit "&gt;"
else if Ascii.eqb c nl then lit "<br/>"
else [c].

(** The value at the end of a path of keys, when every value on the way is a
    dict that has the next key. *)
Fixpoint deep_get (val : json) (keys : list str) : option json :=
match keys with
| [] => Some val
| k :: rest =>
    match val with
    | JDict items =>
        match lookup k items with
        | Some v => deep_get v rest
        | None => None
        end
    | _ => None
    end
end.

(** The sum of the net changes of some lines. *)
Fixpoint net_sum (lines : list str) : Z :=
match lines with
| [] => 0%Z
| line :: rest => (fst (count_braces_ignoring_strings line) + net_sum rest)%Z
end.

(** A renderer that keeps the files there are and, when it succeeds, has
    written its own. *)
Definition writes_its_file
    (generate_pdf : json -> str -> str -> list str -> bool * list str) : Prop :=
forall data path title fs,
  incl fs (snd (generate_pdf data path title fs)) /\
  (fst (generate_pdf data path title fs) = true ->
   In path (snd (generate_pdf data path title fs))).

(** What holds of the buffer and the balance between two lines.  The
    balance is the sum of the net changes of the lines in the buffer; the
    buffer holds no blank line and starts with a line on which the scanner
    saw an opening brace.  Inside an object the buffer is not empty and each
    of its beginnings of two lines or more has a sum above zero.  Outside,
    the buffer is empty (nothing was opened yet) or is the one closed last:
    two lines at least, a sum that is not above zero, and a sum above zero
    for each of its beginnings of two lines or more that is not the whole. *)
Definition buffer_ok (s : state) : Prop :=
  brace_balance s = net_sum (buffer s) /\
  Forall (fun l => strip l <> []) (buffer s) /\
  (forall first rest,
      buffer s = first :: rest ->
      snd (count_braces_ignoring_strings first) = true) /\
  (in_json s = true ->
   buffer s <> [] /\
   forall k, 2 <= k <= List.length (buffer s) ->
             (0 < net_sum (firstn k (buffer s)))%Z) /\
  (in_json s = false ->
   buffer s = [] \/
   (2 <= List.length (buffer s) /\
    (brace_balance s <= 0)%Z /\
    forall k, 2 <= k < List.length (buffer s) ->
              (0 < net_sum (firstn k (buffer s)))%Z)).

(** What holds of every pending title. *)
Definition title_ok (t : str) : Prop :=
  t <> [] /\ List.length t < 150 /\
  contains "{" t = false /\ contains "}" t = false /\ strip t = t.

(** What holds of the files and the documents of a run that started with
    the files [fs0]. *)
Definition files_ok (fs0 : list str) (s : state) : Prop :=
  incl fs0 (files s) /\
  incl (documents (events s)) (files s) /\
  NoDup (documents (events s)) /\
  Forall (fun p => ~ In p fs0) (documents (events s)).

(** * Properties *)

#[local] Arguments Ascii.eqb : simpl never.
#[local] Arguments dq : simpl never.
#[local] Arguments bs : simpl never.

(** ** Strings *)

Lemma count_app c a b : count c (a ++ b) = count c a + count c b.
Proof.
  induction a as [|d a IH]; simpl; [reflexivity|].
  rewrite IH. lia.
Qed.

Lemma count_same c s : count c (c :: s) = S (count c s).
Proof. cbn [count]. now rewrite Ascii.eqb_refl. Qed.

Lemma contains_app c a b : contains c (a ++ b) = contains c a || contains c b.
Proof. apply existsb_app. Qed.

Lemma contains_cons c d s :
  contains c (d :: s) = Ascii.eqb c d || contains c s.
Proof. reflexivity. Qed.

Lemma contains_count c s : contains c s = (0 <? count c s).
Proof.
  induction s as [|d s IH]; [reflexivity|].
  rewrite contains_cons, IH, (Ascii.eqb_sym c d). simpl count.
  destruct (Ascii.eqb d c); reflexivity.
Qed.

Lemma contains_In c s : contains c s = true <-> In c s.
Proof.
  unfold contains. rewrite existsb_exists. split.
  - intros [x [Hin Heq]]. apply Ascii.eqb_eq in Heq. now subst.
  - intros Hin. exists c. split; [assumption|apply Ascii.eqb_refl].
Qed.

Lemma contains_false_count c s : contains c s = false -> count c s = 0.
Proof.
  rewrite contains_count. intros H. apply Nat.ltb_ge in H. lia.
Qed.

(** ** The scanner *)

Lemma scanner_unfold line :
  count_braces_ignoring_strings line = braces (clean_line line).
Proof. reflexivity. Qed.

Lemma braces_app a b :
  braces (a ++ b) =
  ((fst (braces a) + fst (braces b))%Z, snd (braces a) || snd (braces b)).
Proof.
  unfold braces; simpl. rewrite !count_app, contains_app. f_equal. lia.
Qed.

Lemma braces_quote tail : braces (dq :: tail) = braces tail.
Proof.
  unfold braces. cbn [count]. rewrite contains_cons.
  change (Ascii.eqb dq "{") with false. change (Ascii.eqb dq "}") with false.
  change (Ascii.eqb "{" dq) with false. reflexivity.
Qed.

Lemma sub_quoted_plain s :
  contains dq s = false -> sub_quoted false s = s.
Proof.
  induction s as [|c s IH]; simpl; [reflexivity|].
  intros H. apply orb_false_iff in H as [Hc Hs].
  rewrite (Ascii.eqb_sym c dq), Hc. simpl. now rewrite IH.
Qed.

(** A text whose quotes pair up is cleaned on its own, whatever follows; a
    text read from inside a span and holding an odd number of quotes
    likewise. *)
Lemma sub_quoted_app a x :
  (Nat.even (count dq a) = true ->
   sub_quoted false (a ++ x) = sub_quoted false a ++ sub_quoted false x) /\
  (Nat.odd (count dq a) = true ->
   sub_quoted true (a ++ x) = sub_quoted true a ++ sub_quoted false x).
Proof.
  induction a as [|c a [IHe IHo]].
  - split; [reflexivity|]. simpl. discriminate.
  - simpl count. destruct (Ascii.eqb c dq) eqn:Hc.
    + split; intros H.
      * change (Nat.even (S (count dq a)) = true) in H.
        rewrite Nat.even_succ in H.
        assert (Hin : contains dq a = true).
        { rewrite contains_count. apply Nat.ltb_lt.
          destruct (count dq a); [discriminate|lia]. }
        simpl. rewrite Hc, contains_app, Hin. simpl. now apply IHo.
      * change (Nat.odd (S (count dq a)) = true) in H.
        rewrite Nat.odd_succ in H.
        simpl. rewrite Hc. now apply IHe.
    + simpl. rewrite Hc. simpl. split; intros H.
      * now rewrite IHe.
      * now apply IHo.
Qed.

Lemma sub_quoted_skip p r :
  contains dq p = false -> sub_quoted true (p ++ dq :: r) = sub_quoted false r.
Proof.
  induction p as [|c p IH]; simpl.
  - intros _. reflexivity.
  - intros H. apply orb_false_iff in H as [Hc Hp].
    rewrite (Ascii.eqb_sym c dq), Hc. now apply IH.
Qed.

Lemma sub_quoted_quote r :
  sub_quoted false (dq :: r) =
  if contains dq r then sub_quoted true r else dq :: sub_quoted false r.
Proof.
  cbn [sub_quoted]. rewrite Ascii.eqb_refl. reflexivity.
Qed.






(** *** Escaped quotes *)

Lemma replace_esc_nil skip : replace_from [bs; dq] [] skip [] = [].
Proof. destruct skip; reflexivity. Qed.

Lemma replace_esc_skip d r :
  replace_from [bs; dq] [] 1 (d :: r) = replace_from [bs; dq] [] 0 r.
Proof. reflexivity. Qed.

Lemma replace_esc_cons c r :
  replace_from [bs; dq] [] 0 (c :: r) =
  if Ascii.eqb bs c && startswith [dq] r
  then replace_from [bs; dq] [] 1 r
  else c :: replace_from [bs; dq] [] 0 r.
Proof. reflexivity. Qed.

Lemma delete_escaped_cons prev c r :
  delete_escaped_quotes prev (c :: r) =
  if (Ascii.eqb c bs && startswith [dq] r)
     || (Ascii.eqb c dq && after_backslash prev)
  then delete_escaped_quotes (Some c) r
  else c :: delete_escaped_quotes (Some c) r.
Proof.
  cbn [delete_escaped_quotes]. unfold after_backslash.
  replace (match r with d :: _ => Ascii.eqb d dq | [] => false end)
    with (startswith [dq] r); [reflexivity|].
  destruct r as [|d r]; simpl; [reflexivity|].
  now rewrite andb_true_r, Ascii.eqb_sym.
Qed.

Lemma bs_not_dq : Ascii.eqb bs dq = false.
Proof. reflexivity. Qed.

Lemma dq_not_bs : Ascii.eqb dq bs = false.
Proof. reflexivity. Qed.

(** Only a backslash before the text matters to what is deleted in it. *)
Lemma delete_escaped_prev prev s :
  after_backslash prev = false ->
  delete_escaped_quotes prev s = delete_escaped_quotes None s.
Proof.
  intros H. destruct s as [|c r]; [reflexivity|].
  rewrite !delete_escaped_cons, H. reflexivity.
Qed.

(** [str.replace] deletes every escaped-quote sequence, and nothing else. *)
Lemma replace_deletes_escaped s :
  replace [bs; dq] [] s = delete_escaped_quotes None s.
Proof.
  unfold replace.
  enough (H : forall n s prev, List.length s <= n ->
              (after_backslash prev = true -> startswith [dq] s = false) ->
              replace_from [bs; dq] [] 0 s = delete_escaped_quotes prev s).
  { apply (H (List.length s)); [lia|]. discriminate. }
  clear s. induction n as [|n IH]; intros s prev Hlen Hprev.
  - destruct s; [reflexivity|simpl in Hlen; lia].
  - destruct s as [|c r]; [reflexivity|].
    rewrite replace_esc_cons, delete_escaped_cons.
    assert (Hafter : Ascii.eqb c dq && after_backslash prev = false).
    { destruct (after_backslash prev); [|apply andb_false_r].
      specialize (Hprev eq_refl). simpl in Hprev.
      rewrite andb_true_r in Hprev.
      now rewrite (Ascii.eqb_sym c dq), Hprev. }
    rewrite Hafter, orb_false_r, (Ascii.eqb_sym bs c).
    destruct (startswith [dq] r) eqn:Hr; destruct (Ascii.eqb c bs) eqn:Hc;
      rewrite ?andb_true_r, ?andb_false_r; cbv iota.
    + apply Ascii.eqb_eq in Hc. subst c.
      destruct r as [|d r']; [discriminate|].
      simpl in Hr. rewrite andb_true_r in Hr.
      apply Ascii.eqb_eq in Hr. subst d.
      rewrite replace_esc_skip, delete_escaped_cons.
      simpl after_backslash. rewrite !Ascii.eqb_refl, dq_not_bs.
      rewrite andb_false_l, orb_false_l, andb_true_l.
      apply IH; [simpl in Hlen; lia|].
      simpl. rewrite dq_not_bs. discriminate.
    + f_equal. apply IH; [simpl in Hlen; lia|].
      simpl after_backslash. rewrite Hc. discriminate.
    + f_equal. apply IH; [simpl in Hlen; lia|]. intros _. exact Hr.
    + f_equal. apply IH; [simpl in Hlen; lia|]. intros _. exact Hr.
Qed.

Lemma startswith_quote_plain r :
  contains dq r = false -> startswith [dq] r = false.
Proof.
  destruct r as [|d r']; [reflexivity|].
  rewrite contains_cons. intros H. apply orb_false_iff in H as [Hd _].
  simpl. now rewrite Hd.
Qed.

Lemma delete_escaped_plain prev s :
  contains dq s = false -> delete_escaped_quotes prev s = s.
Proof.
  revert prev. induction s as [|c r IH]; intros prev H; [reflexivity|].
  rewrite contains_cons in H. apply orb_false_iff in H as [Hc Hr].
  rewrite delete_escaped_cons, (Ascii.eqb_sym c dq), Hc.
  rewrite (startswith_quote_plain _ Hr), andb_false_r, andb_false_l.
  simpl orb. cbv iota. f_equal. now apply IH.
Qed.

(** Where the left part does not end in a backslash, the deletion works on
    the two parts apart. *)
Lemma delete_escaped_app_cons a b : forall c prev,
  endswith bs (c :: a) = false ->
  delete_escaped_quotes prev ((c :: a) ++ b) =
  delete_escaped_quotes prev (c :: a) ++ delete_escaped_quotes None b.
Proof.
  induction a as [|d a IH]; intros c prev H.
  - simpl in H. simpl app.
    rewrite !delete_escaped_cons, H, !andb_false_l, !orb_false_l.
    rewrite (delete_escaped_prev (Some c) b) by exact H.
    unfold after_backslash.
    match goal with |- context [if ?b then _ else _] => destruct b end;
      reflexivity.
  - change (endswith bs (d :: a) = false) in H.
    change ((c :: d :: a) ++ b) with (c :: (d :: a) ++ b).
    rewrite (delete_escaped_cons prev c ((d :: a) ++ b)).
    rewrite (delete_escaped_cons prev c (d :: a)).
    change (startswith [dq] ((d :: a) ++ b)) with (startswith [dq] (d :: a)).
    rewrite (IH d (Some c) H).
    destruct ((Ascii.eqb c bs && startswith [dq] (d :: a))
              || (Ascii.eqb c dq && after_backslash prev)); reflexivity.
Qed.

Lemma replace_esc_app a b :
  endswith bs a = false ->
  replace [bs; dq] [] (a ++ b) =
  replace [bs; dq] [] a ++ replace [bs; dq] [] b.
Proof.
  intros H. rewrite !replace_deletes_escaped.
  destruct a as [|c a]; [reflexivity|].
  now apply delete_escaped_app_cons.
Qed.

Lemma replace_esc_quote s :
  replace [bs; dq] [] (dq :: s) = dq :: replace [bs; dq] [] s.
Proof.
  change (dq :: s) with ([dq] ++ s).
  rewrite replace_esc_app; reflexivity.
Qed.

Lemma replace_esc_plain s :
  contains dq s = false -> replace [bs; dq] [] s = s.
Proof.
  intros H. rewrite replace_deletes_escaped. now apply delete_escaped_plain.
Qed.

(** A span from an unescaped quote to the next quote, which is unescaped too,
    is deleted whole when the quotes before it pair up. *)
Lemma clean_line_span pre inner post :
  endswith bs pre = false ->
  Nat.even (count dq (replace [bs; dq] [] pre)) = true ->
  contains dq inner = false ->
  endswith bs inner = false ->
  clean_line (pre ++ dq :: inner ++ dq :: post) =
  clean_line pre ++ clean_line post.
Proof.
  intros Hpre Heven Hinner Hend. unfold clean_line.
  rewrite (replace_esc_app pre _ Hpre), replace_esc_quote.
  rewrite (replace_esc_app inner _ Hend), replace_esc_quote.
  rewrite (replace_esc_plain inner Hinner).
  unfold re_sub_quoted.
  destruct (sub_quoted_app (replace [bs; dq] [] pre)
              (dq :: inner ++ dq :: replace [bs; dq] [] post)) as [He _].
  rewrite (He Heven). f_equal.
  rewrite sub_quoted_quote, contains_app, contains_cons, Ascii.eqb_refl.
  rewrite orb_true_r. cbv iota. now apply sub_quoted_skip.
Qed.


(** A last quote without a partner stays with all that follows it. *)
Lemma sub_quoted_open_tail pre tail :
  Nat.even (count dq pre) = true ->
  contains dq tail = false ->
  re_sub_quoted (pre ++ dq :: tail) = re_sub_quoted pre ++ dq :: tail.
Proof.
  intros Heven Htail. unfold re_sub_quoted.
  destruct (sub_quoted_app pre (dq :: tail)) as [He _].
  rewrite (He Heven), sub_quoted_quote, Htail.
  now rewrite (sub_quoted_plain tail Htail).
Qed.

(** The text after the last quote of a text, and the text before it. *)
Lemma last_quote s :
  contains dq s = true ->
  exists pre tail, s = pre ++ dq :: tail /\ contains dq tail = false.
Proof.
  induction s as [|c s IH]; [discriminate|].
  intros H. destruct (contains dq s) eqn:Hs.
  - destruct (IH eq_refl) as (pre & tail & Heq & Ht).
    exists (c :: pre), tail. split; [simpl; now rewrite Heq|exact Ht].
  - rewrite contains_cons, Hs, orb_false_r in H.
    apply Ascii.eqb_eq in H. subst c.
    exists [], s. split; [reflexivity|exact Hs].
Qed.

(** Cleaning only deletes characters. *)
Lemma sub_quoted_In c s : forall inside,
  In c (sub_quoted inside s) -> In c s.
Proof.
  induction s as [|d s IH]; intros inside H; [destruct inside; exact H|].
  cbn [sub_quoted] in H.
  destruct inside.
  - right. destruct (Ascii.eqb d dq); eapply IH; exact H.
  - destruct (Ascii.eqb d dq && contains dq s).
    + right. eapply IH; exact H.
    + destruct H as [H|H]; [now left|right; eapply IH; exact H].
Qed.

Lemma delete_escaped_In c s : forall prev,
  In c (delete_escaped_quotes prev s) -> In c s.
Proof.
  induction s as [|d s IH]; intros prev H; [exact H|].
  rewrite delete_escaped_cons in H.
  destruct ((Ascii.eqb d bs && startswith [dq] s)
            || (Ascii.eqb d dq && after_backslash prev)).
  - right. eapply IH; exact H.
  - destruct H as [H|H]; [now left|right; eapply IH; exact H].
Qed.

Lemma clean_line_In c line : In c (clean_line line) -> In c line.
Proof.
  unfold clean_line, re_sub_quoted. intros H.
  apply sub_quoted_In in H. rewrite replace_deletes_escaped in H.
  eapply delete_escaped_In; exact H.
Qed.




(** ** White space *)

Lemma lstrip_In c s : In c (lstrip s) -> In c s.
Proof.
  induction s as [|d s IH]; simpl; [tauto|].
  destruct (isspace d); [intros H; right; now apply IH|tauto].
Qed.

Lemma lstrip_keeps c s : In c s -> isspace c = false -> In c (lstrip s).
Proof.
  intros Hin Hc. induction s as [|d s IH]; [exact Hin|].
  simpl. destruct (isspace d) eqn:Hd; [|exact Hin].
  destruct Hin as [->|Hin]; [congruence|now apply IH].
Qed.

Lemma strip_In c s : In c (strip s) -> In c s.
Proof.
  unfold strip, rstrip. intros H.
  apply in_rev, lstrip_In in H. apply in_rev in H. now apply lstrip_In in H.
Qed.

Lemma strip_keeps c s : In c s -> isspace c = false -> In c (strip s).
Proof.
  intros Hin Hc. unfold strip, rstrip.
  apply -> in_rev. apply lstrip_keeps; [|exact Hc].
  apply -> in_rev. now apply lstrip_keeps.
Qed.

Lemma contains_strip c s :
  isspace c = false -> contains c (strip s) = contains c s.
Proof.
  intros Hc. apply eq_true_iff_eq. rewrite !contains_In. split.
  - apply strip_In.
  - intros H. now apply strip_keeps.
Qed.

(** A line on which the scanner sees an opening brace holds one, also after
    trimming. *)
Lemma open_brace_in_stripped line :
  snd (count_braces_ignoring_strings line) = true ->
  contains "{" (strip line) = true.
Proof.
  unfold count_braces_ignoring_strings. cbv zeta. simpl snd. intros H.
  rewrite contains_strip by reflexivity.
  apply contains_In. apply contains_In in H. now apply clean_line_In.
Qed.

(** ** The line loop *)

Section Steps.

Variable json_loads : str -> decoded.
Variable generate_pdf : json -> str -> str -> list str -> bool * list str.
Variable OUTPUT_DIR : str.

Local Abbreviation step_ := (step json_loads generate_pdf OUTPUT_DIR).
Local Abbreviation finalize_ := (finalize json_loads generate_pdf OUTPUT_DIR).
Local Abbreviation render_ := (render_record generate_pdf OUTPUT_DIR).
Local Abbreviation run_ := (run json_loads generate_pdf OUTPUT_DIR).
Local Abbreviation history_ := (history json_loads generate_pdf OUTPUT_DIR).

Lemma step_blank s line :
  strip line = [] -> step_ s line = Normal (count_line s).
Proof. intros H. unfold step. now rewrite H. Qed.

Lemma step_idle s line :
  strip line <> [] -> in_json s = false ->
  step_ s line =
  if snd (count_braces_ignoring_strings line)
  then Normal (open_buffer line (fst (count_braces_ignoring_strings line))
                 (count_line s))
  else if qualifies line
       then Normal (set_title (strip line) (count_line s))
       else Normal (count_line s).
Proof.
  intros Hne Hidle. unfold step, qualifies.
  destruct (strip line) as [|c r] eqn:Hs; [congruence|].
  destruct (count_braces_ignoring_strings line) as [net has_open].
  simpl in_json. rewrite Hidle. reflexivity.
Qed.

Lemma step_accumulating s line :
  strip line <> [] -> in_json s = true ->
  step_ s line =
  let s' := append_line line (fst (count_braces_ignoring_strings line))
              (count_line s) in
  if (brace_balance s' <=? 0)%Z then finalize_ s' else Normal s'.
Proof.
  intros Hne Hin. unfold step.
  destruct (strip line) as [|c r] eqn:Hs; [congruence|].
  destruct (count_braces_ignoring_strings line) as [net has_open].
  simpl in_json. rewrite Hin. reflexivity.
Qed.

(** Rendering touches the files, the counter and the events only. *)
Lemma render_record_frame data s :
  buffer (state_of (render_ data s)) = buffer s /\
  brace_balance (state_of (render_ data s)) = brace_balance s /\
  in_json (state_of (render_ data s)) = in_json s /\
  potential_title (state_of (render_ data s)) = potential_title s /\
  lines_read (state_of (render_ data s)) = lines_read s.
Proof.
  unfold render_record.
  destruct (allocate (files s) OUTPUT_DIR (clean_filename (potential_title s)));
    [|repeat split].
  destruct (generate_pdf _ _ _ _) as [ok fs].
  destruct ok; [|repeat split].
  match goal with |- context [if ?b then _ else _] => destruct b end;
    repeat split.
Qed.

(** Closing a buffer leaves the buffer and the balance as they are and
    the loop outside any object. *)
Lemma finalize_frame s :
  buffer (state_of (finalize_ s)) = buffer s /\
  brace_balance (state_of (finalize_ s)) = brace_balance s /\
  in_json (state_of (finalize_ s)) = false /\
  lines_read (state_of (finalize_ s)) = lines_read s.
Proof.
  unfold finalize.
  destruct (json_loads _) as [data|msg]; [|repeat split].
  destruct (is_valid_record data) as [[|]|e]; [|repeat split..].
  set (s1 := emit _ (leave_json s)).
  destruct (render_record_frame data s1) as (Hb & Hn & Hj & _ & Hl).
  destruct (render_ data s1) as [s2|e s2|s2]; simpl in *;
    repeat split; assumption.
Qed.

(** When closing a buffer falls through to the next line, the title is the
    sentinel again. *)
Lemma finalize_resets_title s s' :
  finalize_ s = Normal s' -> potential_title s' = lit "Untitled".
Proof.
  unfold finalize.
  match goal with |- context [match ?r with Normal _ => _ | _ => _ end] =>
    destruct r as [s1|e s1|s1] end; intros H; inversion H. reflexivity.
Qed.

(** A closed buffer whose decoded value makes the validator raise ends the
    loop with that exception, before the title is reset. *)
Lemma finalize_raises s data e :
  json_loads (full_text (buffer s)) = Decoded data ->
  is_valid_record data = Raise e ->
  finalize_ s = Uncaught e (emit (Handed (potential_title s) data)
                              (leave_json s)).
Proof.
  intros Hdec Hraise. unfold finalize. simpl buffer.
  rewrite Hdec, Hraise. reflexivity.
Qed.

(** While a buffer is open a line that is not blank is appended to it and
    its net change is added to the balance, however the line ends. *)
Lemma step_accumulating_frame s line :
  strip line <> [] -> in_json s = true ->
  buffer (state_of (step_ s line)) = buffer s ++ [line] /\
  brace_balance (state_of (step_ s line))
    = (brace_balance s + fst (count_braces_ignoring_strings line))%Z.
Proof.
  intros Hne Hin. rewrite step_accumulating by assumption. cbv zeta.
  match goal with |- context [if ?b then _ else _] => destruct b end.
  - destruct (finalize_frame
                (append_line line (fst (count_braces_ignoring_strings line))
                   (count_line s))) as (Hb & Hn & _).
    rewrite Hb, Hn. split; reflexivity.
  - split; reflexivity.
Qed.

(** The title after one line, by what the line was to the loop. *)
Lemma step_title s line s' :
  step_ s line = Normal s' ->
  potential_title s' =
  match mark_of s line s' with
  | IdleLine l => if qualifies l then strip l else potential_title s
  | BufferLine => potential_title s
  | Finalized => lit "Untitled"
  end.
Proof.
  intros Hstep. unfold mark_of.
  destruct (strip line) as [|c r] eqn:Hs.
  - rewrite step_blank in Hstep by exact Hs. inversion Hstep; subst s'.
    simpl in_json. simpl potential_title.
    destruct (in_json s); [reflexivity|].
    unfold qualifies. now rewrite Hs.
  - assert (Hne : strip line <> []) by (rewrite Hs; discriminate).
    destruct (in_json s) eqn:Hj.
    + rewrite step_accumulating in Hstep by assumption. cbv zeta in Hstep.
      match type of Hstep with (if ?b then _ else _) = _ =>
        destruct b end.
      * pose proof (finalize_frame (append_line line
            (fst (count_braces_ignoring_strings line)) (count_line s)))
          as (_ & _ & Hout & _).
        rewrite Hstep in Hout. simpl in Hout. rewrite Hout.
        eapply finalize_resets_title; exact Hstep.
      * inversion Hstep; subst s'. simpl in_json. now rewrite Hj.
    + rewrite step_idle in Hstep by assumption.
      destruct (snd (count_braces_ignoring_strings line)) eqn:Hopen.
      * apply open_brace_in_stripped in Hopen.
        inversion Hstep; subst s'. unfold qualifies.
        rewrite Hs in *. rewrite Hopen. reflexivity.
      * destruct (qualifies line); inversion Hstep; reflexivity.
Qed.

Lemma step_keeps_title_invariant s line s' past :
  potential_title s = pending_title_spec past ->
  step_ s line = Normal s' ->
  potential_title s' = pending_title_spec (mark_of s line s' :: past).
Proof.
  intros Hinv Hstep. rewrite (step_title _ _ _ Hstep).
  simpl. destruct (mark_of s line s'); rewrite ?Hinv; reflexivity.
Qed.

Lemma run_keeps_title_invariant lines : forall s past s',
  potential_title s = pending_title_spec past ->
  run_ s lines = Normal s' ->
  potential_title s' = pending_title_spec (history_ s lines past).
Proof.
  induction lines as [|line rest IH]; intros s past s' Hinv Hrun.
  - inversion Hrun; subst s'. exact Hinv.
  - simpl in Hrun. simpl history.
    destruct (step_ s line) as [s1|e s1|s1] eqn:Hstep; try discriminate.
    apply (IH s1); [|exact Hrun].
    eapply step_keeps_title_invariant; eassumption.
Qed.

End Steps.

(** C8.  After any number of lines the pending title is the trimmed text of
    the latest line that was met outside any object since the last record was
    closed and that was not blank, held no brace and was shorter than 150
    characters once trimmed, and the sentinel when there is no such line.
    Line by line: outside an object a line that is blank, holds a brace or is
    150 characters or longer leaves the title as it was and any other line
    becomes the title; inside an object the title stays until the buffer is
    closed, and is the sentinel once the closed buffer has been resolved,
    whatever the decoder and the renderer answered. *)
Theorem pending_title_invariant
    (json_loads : str -> decoded)
    (generate_pdf : json -> str -> str -> list str -> bool * list str)
    (OUTPUT_DIR : str) (fs : list str) (lines : list str) (s : state) :
  process_file json_loads generate_pdf OUTPUT_DIR fs lines = Normal s ->
  potential_title s =
    pending_title_spec
      (history json_loads generate_pdf OUTPUT_DIR (initial fs) lines []) /\
  (forall line s',
      step json_loads generate_pdf OUTPUT_DIR s line = Normal s' ->
      potential_title s' =
      if in_json s
      then if in_json s' then potential_title s else lit "Untitled"
      else if qualifies line then strip line else potential_title s).
Proof.
  intros Hrun. split.
  - apply run_keeps_title_invariant with (s := initial fs);
      [reflexivity|exact Hrun].
  - intros line s' Hstep. rewrite (step_title _ _ _ _ _ _ Hstep).
    unfold mark_of. destruct (in_json s); [|reflexivity].
    destruct (in_json s'); reflexivity.
Qed.

Lemma pending_title_invariant_witness :
  let lines := [ln "Title A"; ln "{"; ln "  'name': 'X'"; ln "}"; ln "next"] in
  let s := state_of (process_file Sample.loads Sample.writes (lit "out") [] lines) in
  process_file Sample.loads Sample.writes (lit "out") [] lines = Normal s /\
  potential_title s =
    pending_title_spec
      (history Sample.loads Sample.writes (lit "out") (initial []) lines []) /\
  (forall line s',
      step Sample.loads Sample.writes (lit "out") s line = Normal s' ->
      potential_title s' =
      if in_json s
      then if in_json s' then potential_title s else lit "Untitled"
      else if qualifies line then strip line else potential_title s).
Proof.
  cbv zeta. split; [vm_compute; reflexivity|].
  apply pending_title_invariant. vm_compute. reflexivity.
Defined.

(** C3, as the specification states it, fails on a blank line: with a buffer
    open after the line that holds one opening brace, a line that is only a
    line feed is not appended to the buffer. *)
Lemma blank_line_in_object_not_appended :
  let s := state_of (process_file Sample.loads Sample.writes (lit "out") []
                       [ln "{"]) in
  let s' := state_of (step Sample.loads Sample.writes (lit "out") s [nl]) in
  in_json s = true /\
  ~ (buffer s' = buffer s ++ [[nl]] /\
     brace_balance s' =
       (brace_balance s + fst (count_braces_ignoring_strings [nl]))%Z).
Proof.
  cbv zeta. split; [reflexivity|].
  intros [H _]. vm_compute in H. discriminate H.
Qed.

(** C3, amended.  A blank or white-space-only line is skipped in either
    state: the line counter goes up and nothing else changes.  While a buffer
    is open every other line is appended to the buffer and its net change is
    added to the balance. *)
Theorem accumulating_appends_nonblank
    (json_loads : str -> decoded)
    (generate_pdf : json -> str -> str -> list str -> bool * list str)
    (OUTPUT_DIR : str) (s : state) (line : str) :
  (strip line = [] ->
   step json_loads generate_pdf OUTPUT_DIR s line = Normal (count_line s)) /\
  (strip line <> [] -> in_json s = true ->
   buffer (state_of (step json_loads generate_pdf OUTPUT_DIR s line))
     = buffer s ++ [line] /\
   brace_balance (state_of (step json_loads generate_pdf OUTPUT_DIR s line))
     = (brace_balance s + fst (count_braces_ignoring_strings line))%Z).
Proof.
  split.
  - apply step_blank.
  - apply step_accumulating_frame.
Qed.

Lemma accumulating_appends_nonblank_witness :
  let s := state_of (process_file Sample.loads Sample.writes (lit "out") []
                       [ln "{"]) in
  (strip [nl] = [] /\
   step Sample.loads Sample.writes (lit "out") s [nl] = Normal (count_line s)) /\
  (strip (ln "}") <> [] /\ in_json s = true /\
   buffer (state_of (step Sample.loads Sample.writes (lit "out") s (ln "}")))
     = buffer s ++ [ln "}"] /\
   brace_balance (state_of (step Sample.loads Sample.writes (lit "out") s (ln "}")))
     = (brace_balance s + fst (count_braces_ignoring_strings (ln "}")))%Z).
Proof.
  cbv zeta. split.
  - split; [reflexivity|].
    apply (proj1 (accumulating_appends_nonblank Sample.loads Sample.writes
                    (lit "out") _ [nl])).
    reflexivity.
  - split; [discriminate|]. split; [reflexivity|].
    apply (proj2 (accumulating_appends_nonblank Sample.loads Sample.writes
                    (lit "out") _ (ln "}"))).
    + discriminate.
    + reflexivity.
Defined.

(** C10.  When a line, once its escaped quotes are gone, holds an odd number
    of double quotes, the last of them has no partner: it stays with all the
    text after it, and every brace of that text is counted in the net change
    and in the flag.  Nothing of this reaches the next line: after two lines
    taken into an open buffer the balance has grown by what the scanner gives
    for each of the two lines on its own. *)
Theorem unterminated_quote_counts_tail
    (json_loads : str -> decoded)
    (generate_pdf : json -> str -> str -> list str -> bool * list str)
    (OUTPUT_DIR : str) (line : str) :
  Nat.odd (count dq (replace [bs; dq] [] line)) = true ->
  (exists pre tail,
      replace [bs; dq] [] line = pre ++ dq :: tail /\
      contains dq tail = false /\
      count_braces_ignoring_strings line =
      ((fst (braces (re_sub_quoted pre))
        + (Z.of_nat (count "{" tail) - Z.of_nat (count "}" tail)))%Z,
       snd (braces (re_sub_quoted pre)) || contains "{" tail)) /\
  (forall s s1 next,
      in_json s = true -> strip line <> [] -> strip next <> [] ->
      step json_loads generate_pdf OUTPUT_DIR s line = Normal s1 ->
      in_json s1 = true ->
      brace_balance (state_of (step json_loads generate_pdf OUTPUT_DIR s1 next))
      = (brace_balance s + fst (count_braces_ignoring_strings line)
         + fst (count_braces_ignoring_strings next))%Z).
Proof.
  intros Hodd. split.
  - assert (Hin : contains dq (replace [bs; dq] [] line) = true).
    { rewrite contains_count. apply Nat.ltb_lt.
      destruct (count dq (replace [bs; dq] [] line)); [discriminate|lia]. }
    destruct (last_quote _ Hin) as (pre & tail & Heq & Htail).
    exists pre, tail. split; [exact Heq|]. split; [exact Htail|].
    assert (Heven : Nat.even (count dq pre) = true).
    { rewrite Heq, count_app, count_same in Hodd.
      rewrite (contains_false_count _ _ Htail), Nat.add_1_r in Hodd.
      now rewrite Nat.odd_succ in Hodd. }
    rewrite scanner_unfold. unfold clean_line.
    rewrite Heq, (sub_quoted_open_tail _ _ Heven Htail), braces_app.
    rewrite braces_quote. reflexivity.
  - intros s s1 next Hin Hline Hnext Hstep Hin1.
    destruct (step_accumulating_frame json_loads generate_pdf OUTPUT_DIR
                s line Hline Hin) as [_ Hb].
    rewrite Hstep in Hb. simpl in Hb.
    destruct (step_accumulating_frame json_loads generate_pdf OUTPUT_DIR
                s1 next Hnext Hin1) as [_ Hb1].
    rewrite Hb1, Hb. reflexivity.
Qed.

Lemma unterminated_quote_counts_tail_witness :
  let line := ln "'note': 'open { brace" in
  let s := state_of (process_file Sample.loads Sample.writes (lit "out") []
                       [ln "{"]) in
  let s1 := state_of (step Sample.loads Sample.writes (lit "out") s line) in
  Nat.odd (count dq (replace [bs; dq] [] line)) = true /\
  count_braces_ignoring_strings line = (1%Z, true) /\
  (exists pre tail,
      replace [bs; dq] [] line = pre ++ dq :: tail /\
      contains dq tail = false /\
      count_braces_ignoring_strings line =
      ((fst (braces (re_sub_quoted pre))
        + (Z.of_nat (count "{" tail) - Z.of_nat (count "}" tail)))%Z,
       snd (braces (re_sub_quoted pre)) || contains "{" tail)) /\
  brace_balance (state_of (step Sample.loads Sample.writes (lit "out") s1 (ln "}")))
  = (brace_balance s + fst (count_braces_ignoring_strings line)
     + fst (count_braces_ignoring_strings (ln "}")))%Z.
Proof.
  cbv zeta. split; [reflexivity|]. split; [reflexivity|].
  destruct (unterminated_quote_counts_tail Sample.loads Sample.writes
              (lit "out") (ln "'note': 'open { brace") eq_refl) as [H1 H2].
  split; [exact H1|].
  apply H2; try discriminate; reflexivity.
Defined.

(** ** File names *)

Lemma candidate_suffix safe k : candidate safe k = safe ++ suffix k.
Proof. destruct k; reflexivity. Qed.

Lemma lit_inj a b : lit a = lit b -> a = b.
Proof.
  unfold lit. intros H.
  rewrite <- (string_of_list_ascii_of_string a).
  rewrite <- (string_of_list_ascii_of_string b).
  now rewrite H.
Qed.

Lemma decimal_inj j k : decimal j = decimal k -> j = k.
Proof.
  unfold decimal. intros H. apply lit_inj in H.
  apply DecimalNat.Unsigned.to_uint_inj.
  pose proof (DecimalString.NilEmpty.usu (Nat.to_uint j)) as Hj.
  pose proof (DecimalString.NilEmpty.usu (Nat.to_uint k)) as Hk.
  rewrite H in Hj. rewrite Hj in Hk. now inversion Hk.
Qed.

Lemma suffix_inj j k : suffix j = suffix k -> j = k.
Proof.
  destruct j as [|j], k as [|k]; intros H.
  - reflexivity.
  - discriminate H.
  - discriminate H.
  - simpl in H. inversion H as [H'].
    apply app_inv_tail in H'. now apply decimal_inj.
Qed.

Lemma suffix_not_rooted k : startswith ["/"] (suffix k) = false.
Proof. destruct k; reflexivity. Qed.

(** The paths probed for one title differ from each other in their suffixes
    only. *)
Lemma candidate_path od safe :
  exists prefix, forall k,
    path_join od (candidate safe k) = prefix ++ suffix k.
Proof.
  unfold path_join. destruct safe as [|c safe].
  - destruct od as [|o od'].
    + exists []. intros k. rewrite candidate_suffix. simpl app.
      now rewrite suffix_not_rooted.
    + destruct (endswith "/" (o :: od')).
      * exists (o :: od'). intros k. rewrite candidate_suffix. simpl app.
        now rewrite suffix_not_rooted.
      * exists ((o :: od') ++ ["/"]). intros k. rewrite candidate_suffix.
        simpl app at 1 2. rewrite suffix_not_rooted.
        now rewrite <- app_assoc.
  - destruct (Ascii.eqb "/" c) eqn:Hc.
    + exists (c :: safe). intros k. rewrite candidate_suffix.
      simpl. now rewrite Hc.
    + destruct od as [|o od'].
      * exists (c :: safe). intros k. rewrite candidate_suffix.
        simpl. now rewrite Hc.
      * destruct (endswith "/" (o :: od')).
        -- exists ((o :: od') ++ c :: safe). intros k.
           rewrite candidate_suffix. simpl startswith. rewrite Hc.
           simpl andb. cbv iota. now rewrite app_assoc.
        -- exists ((o :: od') ++ "/" :: c :: safe). intros k.
           rewrite candidate_suffix. simpl startswith. rewrite Hc.
           simpl andb. cbv iota. rewrite <- app_assoc. reflexivity.
Qed.

Lemma candidate_path_inj od safe j k :
  path_join od (candidate safe j) = path_join od (candidate safe k) -> j = k.
Proof.
  destruct (candidate_path od safe) as [prefix H].
  rewrite !H. intros Heq. apply app_inv_head in Heq. now apply suffix_inj.
Qed.

Lemma path_exists_In fs p : path_exists fs p = true <-> In p fs.
Proof.
  unfold path_exists. destruct (in_dec str_eq_dec p fs); split;
    intros; (assumption || reflexivity || discriminate || contradiction).
Qed.

(** Not more candidates exist than there are files. *)
Lemma candidates_taken_bound fs od safe n :
  (forall k, k < n ->
     path_exists fs (path_join od (candidate safe k)) = true) ->
  n <= List.length fs.
Proof.
  intros Hall.
  set (f := fun k => path_join od (candidate safe k)).
  assert (Hnd : NoDup (map f (seq 0 n))).
  { apply Finite.Injective_map_NoDup; [|apply seq_NoDup].
    intros j k. apply candidate_path_inj. }
  assert (Hincl : incl (map f (seq 0 n)) fs).
  { intros p Hp. apply in_map_iff in Hp as (k & <- & Hk).
    apply in_seq in Hk. apply path_exists_In. apply Hall. lia. }
  pose proof (NoDup_incl_length Hnd Hincl) as Hlen.
  now rewrite length_map, length_seq in Hlen.
Qed.

(** The loop entered at candidate [k]: it stops at the first candidate from
    [k] on that does not exist, or runs out of rounds with all of them
    existing. *)
Lemma probe_spec fs od safe : forall fuel k,
  match probe fuel fs od safe (candidate safe k) (S k) with
  | Some fname =>
      exists m, fname = candidate safe m /\ k <= m /\
        path_exists fs (path_join od (candidate safe m)) = false /\
        forall j, k <= j < m ->
          path_exists fs (path_join od (candidate safe j)) = true
  | None =>
      forall j, k <= j < k + fuel ->
        path_exists fs (path_join od (candidate safe j)) = true
  end.
Proof.
  induction fuel as [|fuel IH]; intros k.
  - simpl. intros j Hj. lia.
  - cbn [probe].
    destruct (path_exists fs (path_join od (candidate safe k))) eqn:Hk.
    + specialize (IH (S k)).
      change (safe ++ "_" :: decimal (S k) ++ lit ".pdf")
        with (candidate safe (S k)).
      destruct (probe fuel fs od safe (candidate safe (S k)) (S (S k)))
        as [fname|].
      * destruct IH as (m & Hf & Hkm & Hfree & Hbefore).
        exists m. repeat split; [exact Hf|lia|exact Hfree|].
        intros j Hj. destruct (Nat.eq_dec j k) as [->|Hne];
          [exact Hk|apply Hbefore; lia].
      * intros j Hj. destruct (Nat.eq_dec j k) as [->|Hne];
          [exact Hk|apply IH; lia].
    + exists k. repeat split; [lia|exact Hk|]. intros j Hj. lia.
Qed.

(** The probing loop ends, with the first candidate that does not exist. *)
Lemma allocate_total fs od safe :
  exists k,
    allocate fs od safe = Some (candidate safe k) /\
    path_exists fs (path_join od (candidate safe k)) = false /\
    (forall j, j < k ->
       path_exists fs (path_join od (candidate safe j)) = true).
Proof.
  unfold allocate.
  pose proof (probe_spec fs od safe (S (List.length fs)) 0) as H.
  change (safe ++ lit ".pdf") with (candidate safe 0).
  destruct (probe (S (List.length fs)) fs od safe (candidate safe 0) 1)
    as [fname|].
  - destruct H as (m & -> & _ & Hfree & Hbefore).
    exists m. repeat split; [exact Hfree|]. intros j Hj. apply Hbefore. lia.
  - exfalso.
    assert (Hb : S (List.length fs) <= List.length fs).
    { apply (candidates_taken_bound fs od safe). intros k Hk.
      apply H. lia. }
    lia.
Qed.

(** C7.  The allocator ends with the first of [title.pdf], [title_1.pdf],
    [title_2.pdf], ... that does not exist in the output directory: the name
    it returns does not exist and every name before it in that order does.
    Hence, when neither [title.pdf] nor [title_1.pdf] exists, the first record
    of that title gets [title.pdf] and, once that file is written, the second
    gets [title_1.pdf]. *)
Theorem allocate_first_unused (fs : list str) (od safe : str) :
  (exists k,
      allocate fs od safe = Some (candidate safe k) /\
      path_exists fs (path_join od (candidate safe k)) = false /\
      (forall j, j < k ->
         path_exists fs (path_join od (candidate safe j)) = true)) /\
  (path_exists fs (path_join od (safe ++ lit ".pdf")) = false ->
   path_exists fs (path_join od (safe ++ lit "_1.pdf")) = false ->
   allocate fs od safe = Some (safe ++ lit ".pdf") /\
   allocate (path_join od (safe ++ lit ".pdf") :: fs) od safe
     = Some (safe ++ lit "_1.pdf")).
Proof.
  split; [apply allocate_total|].
  change (safe ++ lit ".pdf") with (candidate safe 0).
  change (safe ++ lit "_1.pdf") with (candidate safe 1).
  intros H0 H1. split.
  - destruct (allocate_total fs od safe) as (k & Hk & _ & Hbefore).
    destruct k as [|k]; [exact Hk|].
    rewrite (Hbefore 0) in H0 by lia. discriminate H0.
  - set (fs' := path_join od (candidate safe 0) :: fs).
    destruct (allocate_total fs' od safe) as (k & Hk & Hfree & Hbefore).
    destruct k as [|[|k]].
    + exfalso. assert (Hin : path_exists fs' (path_join od (candidate safe 0)) = true)
        by (apply path_exists_In; now left).
      rewrite Hin in Hfree. discriminate Hfree.
    + exact Hk.
    + exfalso. assert (Hin : path_exists fs' (path_join od (candidate safe 1)) = true)
        by (apply Hbefore; lia).
      apply path_exists_In in Hin. destruct Hin as [Heq|Hin].
      * apply candidate_path_inj in Heq. discriminate Heq.
      * apply path_exists_In in Hin. rewrite Hin in H1. discriminate H1.
Qed.

Lemma allocate_first_unused_witness :
  path_exists [] (path_join (lit "out") (lit "Title" ++ lit ".pdf")) = false /\
  path_exists [] (path_join (lit "out") (lit "Title" ++ lit "_1.pdf")) = false /\
  allocate [] (lit "out") (lit "Title") = Some (lit "Title" ++ lit ".pdf") /\
  allocate (path_join (lit "out") (lit "Title" ++ lit ".pdf") :: [])
    (lit "out") (lit "Title") = Some (lit "Title" ++ lit "_1.pdf").
Proof.
  split; [reflexivity|]. split; [reflexivity|].
  apply (proj2 (allocate_first_unused [] (lit "out") (lit "Title")));
    reflexivity.
Defined.

(** Two records under the same title, run through the whole loop with a
    renderer that writes its file. *)
Example same_title_twice :
  documents (events (state_of
    (process_file Sample.loads Sample.writes (lit "out") []
       [ln "Title A"; ln "{"; ln "'name': 'first'"; ln "}";
        ln "Title A"; ln "{"; ln "'name': 'second'"; ln "},"])))
  = [lit "out/Title A.pdf"; lit "out/Title A_1.pdf"].
Proof. vm_compute. reflexivity. Qed.

(** ** What the extraction depends on *)

Lemma handed_app a b : handed (a ++ b) = handed a ++ handed b.
Proof.
  induction a as [|e a IH]; [reflexivity|].
  destruct e; simpl; now rewrite IH.
Qed.

Ltac same_states :=
  simpl; unfold same_extraction; simpl; repeat split;
  first [assumption | reflexivity | congruence].

Section Independence.

Variable json_loads : str -> decoded.
Variables generate_pdf1 generate_pdf2
  : json -> str -> str -> list str -> bool * list str.
Variables OUTPUT_DIR1 OUTPUT_DIR2 : str.

Local Abbreviation step1 := (step json_loads generate_pdf1 OUTPUT_DIR1).
Local Abbreviation step2 := (step json_loads generate_pdf2 OUTPUT_DIR2).
Local Abbreviation run1 := (run json_loads generate_pdf1 OUTPUT_DIR1).
Local Abbreviation run2 := (run json_loads generate_pdf2 OUTPUT_DIR2).

(** Rendering ends normally and hands nothing to validation. *)
Lemma render_record_normal gp od data s :
  exists s',
    render_record gp od data s = Normal s' /\
    buffer s' = buffer s /\ brace_balance s' = brace_balance s /\
    in_json s' = in_json s /\ potential_title s' = potential_title s /\
    lines_read s' = lines_read s /\
    handed (events s') = handed (events s).
Proof.
  unfold render_record.
  destruct (allocate_total (files s) od (clean_filename (potential_title s)))
    as (k & -> & _).
  destruct (gp _ _ _ _) as [ok fs].
  destruct ok.
  - match goal with |- context [if ?b then _ else _] => destruct b end;
      eexists; (split; [reflexivity|]); simpl; repeat split;
      rewrite !handed_app; simpl; now rewrite ?app_nil_r.
  - eexists; (split; [reflexivity|]); simpl; repeat split.
    rewrite handed_app; simpl; now rewrite app_nil_r.
Qed.

Lemma finalize_same a b :
  same_extraction a b ->
  same_outcome (finalize json_loads generate_pdf1 OUTPUT_DIR1 a)
               (finalize json_loads generate_pdf2 OUTPUT_DIR2 b).
Proof.
  intros (Hb & Hn & Hj & Ht & Hl & Hh). unfold finalize.
  simpl buffer. rewrite Hb.
  destruct (json_loads (full_text (buffer b))) as [data|msg].
  - destruct (is_valid_record data) as [[|]|e].
    + destruct (render_record_normal generate_pdf1 OUTPUT_DIR1 data
                  (emit (Handed (potential_title (leave_json a)) data)
                     (leave_json a)))
        as (a' & -> & Ha1 & Ha2 & Ha3 & Ha4 & Ha5 & Ha6).
      destruct (render_record_normal generate_pdf2 OUTPUT_DIR2 data
                  (emit (Handed (potential_title (leave_json b)) data)
                     (leave_json b)))
        as (b' & -> & Hb1 & Hb2 & Hb3 & Hb4 & Hb5 & Hb6).
      simpl in *. unfold same_extraction. simpl.
      rewrite Ha1, Ha2, Ha3, Ha5, Ha6, Hb1, Hb2, Hb3, Hb5, Hb6.
      rewrite !handed_app. simpl. rewrite Hb, Hn, Hl, Ht, Hh.
      repeat split.
    + simpl. unfold same_extraction. simpl.
      rewrite !handed_app. simpl. rewrite Hb, Hn, Hl, Ht, Hh.
      repeat split.
    + simpl. rewrite !handed_app. simpl. rewrite Ht, Hh. split; reflexivity.
  - simpl. unfold same_extraction. simpl.
    rewrite !handed_app. simpl. rewrite Hb, Hn, Hl, Hh. repeat split.
Qed.

Lemma step_same a b line :
  same_extraction a b -> same_outcome (step1 a line) (step2 b line).
Proof.
  intros (Hb & Hn & Hj & Ht & Hl & Hh). unfold step.
  destruct (strip line) as [|c r]; [same_states|].
  destruct (count_braces_ignoring_strings line) as [net has_open].
  simpl in_json. rewrite Hj. destruct (in_json b) eqn:Hjb; simpl negb; cbv iota.
  - simpl brace_balance. rewrite Hn.
    destruct (brace_balance b + net <=? 0)%Z; [|same_states].
    apply finalize_same. same_states.
  - destruct has_open; [same_states|].
    match goal with |- context [if ?c then _ else _] => destruct c end;
      same_states.
Qed.

Lemma run_same lines : forall a b,
  same_extraction a b ->
  handed (events (state_of (run1 a lines)))
  = handed (events (state_of (run2 b lines))).
Proof.
  induction lines as [|line rest IH]; intros a b Hab.
  - simpl. apply Hab.
  - simpl. pose proof (step_same a b line Hab) as Hs.
    destruct (step1 a line) as [a'|e a'|a'],
             (step2 b line) as [b'|e' b'|b']; simpl in Hs; try contradiction.
    + now apply IH.
    + simpl. apply Hs.
Qed.

End Independence.

(** C9.  The records handed to validation, each with the title pending at
    that moment, are the same and in the same order in any two runs over the
    same lines: they are a function of the lines and the decoder, and neither
    the files that exist, nor the output directory, nor what the renderer
    does has any part in them. *)
Theorem extraction_depends_on_input_only
    (json_loads : str -> decoded)
    (generate_pdf1 generate_pdf2
       : json -> str -> str -> list str -> bool * list str)
    (OUTPUT_DIR1 OUTPUT_DIR2 : str) (fs1 fs2 : list str) (lines : list str) :
  handed (events (state_of
    (process_file json_loads generate_pdf1 OUTPUT_DIR1 fs1 lines)))
  = handed (events (state_of
    (process_file json_loads generate_pdf2 OUTPUT_DIR2 fs2 lines))).
Proof.
  apply run_same. repeat split.
Qed.

(** ** The opening line *)

(** C1.  A line seen outside any object on which the scanner finds an
    opening brace opens the buffer with that line alone and with the line's
    own net change as the balance; the loop is then inside an object whatever
    that balance is, because the balance is compared with zero only for the
    lines that follow.  So on a title line, a complete object on one line
    (net change 0) and a blank line the run ends with the buffer still open:
    nothing was decoded, nothing was handed to validation and no document was
    made, where the specification expects one record. *)
Theorem single_line_object_is_not_closed
    (json_loads : str -> decoded)
    (generate_pdf : json -> str -> str -> list str -> bool * list str)
    (OUTPUT_DIR : str) (fs : list str) :
  (forall s line,
      in_json s = false -> strip line <> [] ->
      snd (count_braces_ignoring_strings line) = true ->
      exists s',
        step json_loads generate_pdf OUTPUT_DIR s line = Normal s' /\
        buffer s' = [line] /\
        brace_balance s' = fst (count_braces_ignoring_strings line) /\
        in_json s' = true /\ events s' = events s) /\
  count_braces_ignoring_strings
    (ln "{ 'name': 'X', 'questions': [{'question':'Q1','answer':'A1'}] }")
    = (0%Z, true) /\
  process_file json_loads generate_pdf OUTPUT_DIR fs single_line_input
  = Normal
      {| buffer :=
           [ln "{ 'name': 'X', 'questions': [{'question':'Q1','answer':'A1'}] }"];
         brace_balance := 0%Z; in_json := true;
         potential_title := lit "X-ish title";
         records_created := 0; lines_read := 3; files := fs; events := [] |}.
Proof.
  split; [|split].
  - intros s line Hidle Hne Hopen.
    rewrite step_idle by assumption. rewrite Hopen.
    eexists. split; [reflexivity|]. repeat split.
  - vm_compute. reflexivity.
  - vm_compute. reflexivity.
Qed.

Lemma single_line_object_is_not_closed_witness :
  in_json (initial []) = false /\
  strip (ln "{'a': 1}") <> [] /\
  snd (count_braces_ignoring_strings (ln "{'a': 1}")) = true /\
  exists s',
    step Sample.loads Sample.writes (lit "out") (initial []) (ln "{'a': 1}")
      = Normal s' /\
    buffer s' = [ln "{'a': 1}"] /\
    brace_balance s' = fst (count_braces_ignoring_strings (ln "{'a': 1}")) /\
    in_json s' = true /\ events s' = events (initial []).
Proof.
  split; [reflexivity|]. split; [discriminate|]. split; [reflexivity|].
  apply (proj1 (single_line_object_is_not_closed Sample.loads Sample.writes
                  (lit "out") [])).
  - reflexivity.
  - discriminate.
  - reflexivity.
Defined.

(** The next line that is not blank closes such a buffer, and goes to the
    decoder with it. *)
Example single_line_object_swallows_next_line :
  events (state_of
    (process_file Sample.loads Sample.writes (lit "out") []
       [ln "Title A"; ln "{'name': 'X'}"; ln "Title B"]))
  = [LogParseError 3 (jlit "{'name': 'X'}" ++ nl :: lit "Title B")
       (lit "Extra data")].
Proof. vm_compute. reflexivity. Qed.

(** ** The validator *)

(** C4, as the specification states it, fails where [questions] is a
    mapping: the validator accepts the record, and the value is no
    sequence. *)
Lemma mapping_questions_accepted :
  let data :=
    JDict [(lit "company", JDict [(lit "name", JStr (lit "Acme"))]);
           (lit "questions", JDict [(lit "q", JStr (lit "a"))])] in
  ~ (is_valid_record data = Return true <-> spec_valid data).
Proof.
  cbv zeta. intros [H _]. specialize (H eq_refl).
  unfold spec_valid, nonempty_sequence in H.
  destruct H as (items & Heq & _ & [(v & Hv & _) | (_ & q & Hq & x & rest & Hl)]).
  - inversion Heq; subst items. vm_compute in Hv. discriminate Hv.
  - inversion Heq; subst items. rewrite Hl in Hq. vm_compute in Hq.
    discriminate Hq.
Qed.

Lemma is_valid_record_nonempty items :
  items <> [] ->
  is_valid_record (JDict items) =
  match has_questions items with
  | Raise e => Raise e
  | Return hq =>
      Return (has_name items || (has_key (lit "company") items && hq))
  end.
Proof. destruct items; [congruence|reflexivity]. Qed.

Lemma has_name_true items :
  has_name items = true <->
  exists v, lookup (lit "name") items = Some v /\ truthy v = true.
Proof.
  unfold has_name. destruct (lookup (lit "name") items) as [v|]; split.
  - intros H. now exists v.
  - intros (v' & Hv & Ht). now inversion Hv; subst v'.
  - discriminate.
  - intros (v' & Hv & _). discriminate Hv.
Qed.

Lemma has_questions_true items :
  has_questions items = Return true <->
  exists q n, lookup (lit "questions") items = Some q /\
              py_len q = Return n /\ 0 < n.
Proof.
  unfold has_questions.
  destruct (lookup (lit "questions") items) as [q|]; split.
  - destruct (py_len q) as [n|e] eqn:Hlen; [|discriminate].
    intros H. injection H as Hn. exists q, n.
    split; [reflexivity|]. split; [exact Hlen|]. now apply Nat.ltb_lt.
  - intros (q' & n & Hq & Hlen & Hn). inversion Hq; subst q'.
    rewrite Hlen. f_equal. now apply Nat.ltb_lt.
  - discriminate.
  - intros (q' & n & Hq & _). discriminate Hq.
Qed.

(** C4, amended.  For a decoded value whose [questions] entry, when there is
    one, has a length (a string, a sequence or a mapping), the validator
    returns true exactly when the value is a non-empty mapping and either its
    [name] entry is present and true in Python's sense, or its [company] entry
    is present and its [questions] entry is present with a length above zero.
    The three examples of the specification come out as it says. *)
Theorem is_valid_record_sized (data : json) :
  ((forall items q,
       data = JDict items -> lookup (lit "questions") items = Some q ->
       has_length q) ->
   (is_valid_record data = Return true <-> sized_valid data)) /\
  is_valid_record (JDict []) = Return false /\
  is_valid_record
    (JDict [(lit "company", JDict [(lit "name", JStr (lit "Acme"))]);
            (lit "questions", JList [])]) = Return false /\
  is_valid_record
    (JDict [(lit "company", JDict [(lit "name", JStr (lit "Acme"))]);
            (lit "questions",
             JList [JDict [(lit "question", JStr (lit "Q"));
                           (lit "answer", JStr [])]])]) = Return true.
Proof.
  split; [|repeat split].
  intros Hsized. unfold sized_valid.
  destruct data as [| | | | |l|items];
    try (split; [intros Hv; discriminate Hv
                |intros (items' & Heq & _); discriminate Heq]).
  destruct items as [|kv rest].
  { split; [intros Hv; discriminate Hv|].
    intros (items' & Heq & Hne & _). inversion Heq; subst items'.
    congruence. }
  remember (kv :: rest) as items eqn:Hitems.
  assert (Hne : items <> []) by (rewrite Hitems; discriminate).
  clear Hitems kv rest.
  rewrite (is_valid_record_nonempty items Hne).
  specialize (Hsized items).
  split.
  - intros Hv. exists items. split; [reflexivity|]. split; [exact Hne|].
    destruct (has_questions items) as [hq|e] eqn:Hq; [|discriminate Hv].
    injection Hv as Hb. apply orb_true_iff in Hb as [Hn|Hc].
    + left. now apply has_name_true.
    + apply andb_true_iff in Hc as [Hc Hhq]. subst hq.
      right. split; [exact Hc|]. now apply has_questions_true.
  - intros (items' & Heq & _ & Hcase). inversion Heq; subst items'.
    destruct Hcase as [Hname | [Hc Hq]].
    + apply has_name_true in Hname. rewrite Hname.
      destruct (has_questions items) as [hq|e] eqn:Hq; [reflexivity|].
      exfalso. unfold has_questions in Hq.
      destruct (lookup (lit "questions") items) as [q|] eqn:Hlq;
        [|discriminate Hq].
      specialize (Hsized q eq_refl eq_refl).
      destruct q; simpl in Hsized; try contradiction; discriminate Hq.
    + apply has_questions_true in Hq. rewrite Hq, Hc.
      now rewrite orb_true_r.
Qed.

Lemma is_valid_record_sized_witness :
  let data :=
    JDict [(lit "company", JDict [(lit "name", JStr (lit "Acme"))]);
           (lit "questions", JDict [(lit "q", JStr (lit "a"))])] in
  (forall items q,
      data = JDict items -> lookup (lit "questions") items = Some q ->
      has_length q) /\
  (is_valid_record data = Return true <-> sized_valid data).
Proof.
  cbv zeta.
  assert (H : forall items q,
             JDict [(lit "company", JDict [(lit "name", JStr (lit "Acme"))]);
                    (lit "questions", JDict [(lit "q", JStr (lit "a"))])]
             = JDict items ->
             lookup (lit "questions") items = Some q -> has_length q).
  { intros items q Heq Hq. inversion Heq; subst items.
    vm_compute in Hq. inversion Hq. exact I. }
  split; [exact H|].
  exact (proj1 (is_valid_record_sized _) H).
Defined.

(** ** Exceptions *)

(** C5.  An exception does leave the loop.  A closed buffer that decodes to
    a mapping whose [questions] entry is a number makes the validator raise
    [TypeError] (a number has no length); the handler around the decoding
    catches the decoder's own error only, so the exception ends
    [process_file] at the third line and the fourth line is never read. *)
Theorem validation_type_error_escapes
    (json_loads : str -> decoded)
    (generate_pdf : json -> str -> str -> list str -> bool * list str)
    (OUTPUT_DIR : str) (fs : list str) :
  json_loads (full_text [ln "{"; ln "'questions': 5"; ln "}"])
    = Decoded (JDict [(lit "questions", JInt 5)]) ->
  is_valid_record (JDict [(lit "questions", JInt 5)]) = Raise TypeError /\
  match process_file json_loads generate_pdf OUTPUT_DIR fs
          numeric_questions_input with
  | Uncaught TypeError s =>
      lines_read s = 3 /\
      events s = [Handed (lit "Untitled") (JDict [(lit "questions", JInt 5)])]
  | _ => False
  end.
Proof.
  intros Hdec. split; [reflexivity|].
  unfold process_file, numeric_questions_input.
  set (s2 := {| buffer := [ln "{"; ln "'questions': 5"];
                brace_balance := 1%Z; in_json := true;
                potential_title := lit "Untitled";
                records_created := 0; lines_read := 2; files := fs;
                events := [] |}).
  change (run json_loads generate_pdf OUTPUT_DIR (initial fs)
            [ln "{"; ln "'questions': 5"; ln "}"; ln "Next title"])
    with (match step json_loads generate_pdf OUTPUT_DIR s2 (ln "}") with
          | Normal s' =>
              run json_loads generate_pdf OUTPUT_DIR s' [ln "Next title"]
          | o => o
          end).
  rewrite step_accumulating; [|discriminate|reflexivity].
  cbv zeta.
  change (brace_balance
            (append_line (ln "}")
               (fst (count_braces_ignoring_strings (ln "}")))
               (count_line s2)) <=? 0)%Z with true.
  cbv iota.
  rewrite (finalize_raises json_loads generate_pdf OUTPUT_DIR _
             (JDict [(lit "questions", JInt 5)]) TypeError);
    [|exact Hdec|reflexivity].
  split; reflexivity.
Qed.

Lemma validation_type_error_escapes_witness :
  Sample.loads (full_text [ln "{"; ln "'questions': 5"; ln "}"])
    = Decoded (JDict [(lit "questions", JInt 5)]) /\
  is_valid_record (JDict [(lit "questions", JInt 5)]) = Raise TypeError /\
  match process_file Sample.loads Sample.writes (lit "out") []
          numeric_questions_input with
  | Uncaught TypeError s =>
      lines_read s = 3 /\
      events s = [Handed (lit "Untitled") (JDict [(lit "questions", JInt 5)])]
  | _ => False
  end.
Proof.
  split; [vm_compute; reflexivity|].
  apply (validation_type_error_escapes Sample.loads Sample.writes
           (lit "out") []).
  vm_compute. reflexivity.
Defined.

(** What the loop does contain: a text the decoder rejects, a record the
    validator turns down and a renderer that fails all leave the loop
    running. *)
Example contained_failures :
  match process_file Sample.loads Sample.fails (lit "out") []
          [ln "{"; ln "'name': "; ln "}";
           ln "{"; ln "'other': 1"; ln "}";
           ln "{"; ln "'name': 'X'"; ln "}"; ln "Next title"] with
  | Normal s =>
      lines_read s = 10 /\ potential_title s = lit "Next title" /\
      records_created s = 0
  | _ => False
  end.
Proof. vm_compute. repeat split. Qed.

(** ** Sanitised titles *)

(** C6.  [clean_filename] never returns more than 100 characters, and for a
    title that is not empty it returns only characters that are word
    characters, white space or hyphens.  But the fallback is taken for the
    empty title only: a title that is not empty and of which the
    sanitisation leaves nothing gives the empty string, not [Untitled]. *)
Theorem clean_filename_empty_after_sanitization (text : str) :
  List.length (clean_filename text) <= 100 /\
  (text <> [] ->
   Forall (fun c => is_word c || isspace c || Ascii.eqb c "-" = true)
     (clean_filename text)) /\
  (text <> [] -> sanitize text = [] -> clean_filename text = []) /\
  clean_filename (lit "!!!") = [].
Proof.
  split; [|split; [|split]].
  - unfold clean_filename. destruct text as [|c r].
    + vm_compute. lia.
    + rewrite length_firstn. lia.
  - intros Hne. unfold clean_filename. destruct text as [|c r]; [congruence|].
    apply Forall_forall. intros x Hx.
    assert (Hx' : In x (strip (sanitize (c :: r)))).
    { rewrite <- (firstn_skipn 100 (strip (sanitize (c :: r)))).
      apply in_or_app. now left. }
    apply strip_In in Hx'. rename Hx' into Hin. clear Hx. rename Hin into Hx.
    unfold sanitize in Hx. apply filter_In in Hx. apply Hx.
  - intros Hne Hs. unfold clean_filename.
    destruct text as [|c r]; [congruence|]. now rewrite Hs.
  - reflexivity.
Qed.

Lemma clean_filename_empty_after_sanitization_witness :
  lit "!!!" <> [] /\ sanitize (lit "!!!") = [] /\
  clean_filename (lit "!!!") = [].
Proof.
  split; [discriminate|]. split; [reflexivity|].
  apply (proj1 (proj2 (proj2
           (clean_filename_empty_after_sanitization (lit "!!!")))));
    [discriminate|reflexivity].
Defined.

(** The document of a record under such a title is named by the extension
    alone. *)
Example punctuation_title_document :
  documents (events (state_of
    (process_file Sample.loads Sample.writes (lit "out") []
       [ln "!!!"; ln "{"; ln "'name': 'X'"; ln "}"])))
  = [lit "out/.pdf"].
Proof. vm_compute. reflexivity. Qed.

(** * Further properties of the code *)

(** ** Trimming *)

Lemma lstrip_head s :
  match lstrip s with
  | [] => True
  | c :: _ => isspace c = false
  end.
Proof.
  induction s as [|c r IH]; simpl; [exact I|].
  destruct (isspace c) eqn:Hc; [exact IH|exact Hc].
Qed.

Lemma lstrip_lstrip s : lstrip (lstrip s) = lstrip s.
Proof.
  pose proof (lstrip_head s) as H.
  destruct (lstrip s) as [|c r]; [reflexivity|]. simpl. now rewrite H.
Qed.

Lemma lstrip_snoc x c :
  isspace c = false -> lstrip (x ++ [c]) = lstrip x ++ [c].
Proof.
  intros Hc. induction x as [|d x IH]; simpl.
  - now rewrite Hc.
  - destruct (isspace d); [exact IH|reflexivity].
Qed.

Lemma rstrip_cons c r :
  isspace c = false -> rstrip (c :: r) = c :: rstrip r.
Proof.
  intros Hc. unfold rstrip. simpl rev.
  rewrite (lstrip_snoc _ _ Hc), rev_app_distr. reflexivity.
Qed.

Lemma rstrip_rstrip s : rstrip (rstrip s) = rstrip s.
Proof.
  unfold rstrip. now rewrite rev_involutive, lstrip_lstrip.
Qed.

(** Trimming a trimmed text changes nothing. *)
Lemma strip_strip s : strip (strip s) = strip s.
Proof.
  unfold strip. pose proof (lstrip_head s) as H.
  destruct (lstrip s) as [|c r]; [reflexivity|].
  rewrite (rstrip_cons c r H). simpl lstrip. rewrite H.
  rewrite (rstrip_cons c _ H). now rewrite rstrip_rstrip.
Qed.

(** ** More on the scanner *)

Lemma count_sub_quoted c s : forall inside,
  count c (sub_quoted inside s) <= count c s.
Proof.
  induction s as [|d s IH]; intros inside; [destruct inside; simpl; lia|].
  cbn [sub_quoted count]. destruct inside.
  - destruct (Ascii.eqb d dq).
    + specialize (IH false). lia.
    + specialize (IH true). lia.
  - destruct (Ascii.eqb d dq && contains dq s).
    + specialize (IH true). lia.
    + cbn [count]. specialize (IH false). lia.
Qed.

Lemma count_delete_escaped c s : forall prev,
  count c (delete_escaped_quotes prev s) <= count c s.
Proof.
  induction s as [|d s IH]; intros prev; [simpl; lia|].
  rewrite delete_escaped_cons. cbn [count].
  destruct ((Ascii.eqb d bs && startswith [dq] s)
            || (Ascii.eqb d dq && after_backslash prev)).
  - specialize (IH (Some d)). lia.
  - cbn [count]. specialize (IH (Some d)). lia.
Qed.

Lemma count_clean_line c line : count c (clean_line line) <= count c line.
Proof.
  unfold clean_line, re_sub_quoted.
  pose proof (count_sub_quoted c (replace [bs; dq] [] line) false) as H1.
  rewrite replace_deletes_escaped in *.
  pose proof (count_delete_escaped c line None) as H2. lia.
Qed.

(** X1.  On a line without any double quote the scanner counts the braces
    of the line as it stands: the net change is the number of opening braces
    less the number of closing braces, and the flag says whether there is an
    opening brace. *)
Theorem scanner_plain_line (line : str) :
  contains dq line = false ->
  count_braces_ignoring_strings line =
  ((Z.of_nat (count "{" line) - Z.of_nat (count "}" line))%Z,
   contains "{" line).
Proof.
  intros H. rewrite scanner_unfold. unfold clean_line.
  rewrite (replace_esc_plain line H). unfold re_sub_quoted.
  rewrite (sub_quoted_plain line H). reflexivity.
Qed.

Lemma scanner_plain_line_witness :
  contains dq (lit "  } else { {") = false /\
  count_braces_ignoring_strings (lit "  } else { {") =
  ((Z.of_nat (count "{" (lit "  } else { {"))
    - Z.of_nat (count "}" (lit "  } else { {")))%Z,
   contains "{" (lit "  } else { {")).
Proof.
  split; [reflexivity|]. apply scanner_plain_line. reflexivity.
Defined.

(** X2.  The scanner never finds more braces than the line holds: the net
    change lies between minus the number of closing braces and the number of
    opening braces of the line, the flag is set only when the line holds an
    opening brace, and a line without braces gives net change 0 and no
    flag. *)
Theorem scanner_bounds (line : str) :
  (- Z.of_nat (count "}" line) <= fst (count_braces_ignoring_strings line)
   <= Z.of_nat (count "{" line))%Z /\
  (snd (count_braces_ignoring_strings line) = true ->
   contains "{" line = true) /\
  (contains "{" line = false -> contains "}" line = false ->
   count_braces_ignoring_strings line = (0%Z, false)).
Proof.
  pose proof (count_clean_line "{" line) as Ho.
  pose proof (count_clean_line "}" line) as Hc.
  rewrite scanner_unfold. unfold braces. simpl fst. simpl snd.
  split; [lia|]. split.
  - rewrite !contains_count. intros H. apply Nat.ltb_lt in H.
    apply Nat.ltb_lt. lia.
  - intros H1 H2. apply contains_false_count in H1, H2.
    rewrite contains_count.
    replace (count "{" (clean_line line)) with 0 by lia.
    replace (count "}" (clean_line line)) with 0 by lia. reflexivity.
Qed.

Lemma scanner_bounds_witness :
  (snd (count_braces_ignoring_strings (jlit "{'k': '}'")) = true /\
   contains "{" (jlit "{'k': '}'") = true) /\
  (contains "{" (lit "Title A") = false /\
   contains "}" (lit "Title A") = false /\
   count_braces_ignoring_strings (lit "Title A") = (0%Z, false)).
Proof.
  split.
  - split; [reflexivity|].
    apply (proj1 (proj2 (scanner_bounds (jlit "{'k': '}'")))). reflexivity.
  - split; [reflexivity|]. split; [reflexivity|].
    apply (proj2 (proj2 (scanner_bounds (lit "Title A")))); reflexivity.
Defined.

(** ** Invariants of the line loop *)

Lemma net_sum_app a b : net_sum (a ++ b) = (net_sum a + net_sum b)%Z.
Proof. induction a as [|l a IH]; simpl; [reflexivity|]. rewrite IH. lia. Qed.

Lemma documents_app a b : documents (a ++ b) = documents a ++ documents b.
Proof.
  induction a as [|e a IH]; [reflexivity|].
  destruct e as [| p t d [|] | | |]; simpl; now rewrite IH.
Qed.

Lemma title_ok_sentinel : title_ok (lit "Untitled").
Proof. repeat split; try reflexivity. - discriminate. - simpl. lia. Qed.

Lemma title_ok_qualifies line :
  qualifies line = true -> title_ok (strip line).
Proof.
  unfold qualifies, title_ok. intros H.
  destruct (strip line) as [|c r] eqn:Hs; [discriminate H|].
  rewrite <- Hs in *.
  apply andb_true_iff in H as [H Hlen]. apply andb_true_iff in H as [Ho Hc].
  apply negb_true_iff in Ho, Hc. apply Nat.ltb_lt in Hlen.
  repeat split; try assumption.
  - rewrite Hs. discriminate.
  - apply strip_strip.
Qed.

Section RunInvariants.

Variable json_loads : str -> decoded.
Variable generate_pdf : json -> str -> str -> list str -> bool * list str.
Variable OUTPUT_DIR : str.

Local Abbreviation step_ := (step json_loads generate_pdf OUTPUT_DIR).
Local Abbreviation finalize_ := (finalize json_loads generate_pdf OUTPUT_DIR).
Local Abbreviation render_ := (render_record generate_pdf OUTPUT_DIR).
Local Abbreviation run_ := (run json_loads generate_pdf OUTPUT_DIR).
Local Abbreviation process_ :=
  (process_file json_loads generate_pdf OUTPUT_DIR).


(** An invariant of the states that holds at the start and that every line
    keeps, however the line ends, holds where the run ends. *)
Lemma run_invariant (P : state -> Prop) :
  (forall s line, P s -> P (state_of (step_ s line))) ->
  forall lines s, P s -> P (state_of (run_ s lines)).
Proof.
  intros Hstep. induction lines as [|l lines IH]; intros s Hs; [exact Hs|].
  simpl. specialize (Hstep s l Hs).
  destruct (step_ s l) as [s'|e s'|s']; [apply IH|..]; exact Hstep.
Qed.

(** The ways a line can end, and the state it ends in. *)
Lemma step_cases s line :
  (strip line = [] /\ step_ s line = Normal (count_line s)) \/
  (strip line <> [] /\ in_json s = false /\
   snd (count_braces_ignoring_strings line) = true /\
   step_ s line =
     Normal (open_buffer line (fst (count_braces_ignoring_strings line))
               (count_line s))) \/
  (strip line <> [] /\ in_json s = false /\ qualifies line = true /\
   step_ s line = Normal (set_title (strip line) (count_line s))) \/
  (strip line <> [] /\ in_json s = false /\
   step_ s line = Normal (count_line s)) \/
  (strip line <> [] /\ in_json s = true /\
   (0 < brace_balance s + fst (count_braces_ignoring_strings line))%Z /\
   step_ s line =
     Normal (append_line line (fst (count_braces_ignoring_strings line))
               (count_line s))) \/
  (strip line <> [] /\ in_json s = true /\
   (brace_balance s + fst (count_braces_ignoring_strings line) <= 0)%Z /\
   step_ s line =
     finalize_ (append_line line (fst (count_braces_ignoring_strings line))
                  (count_line s))).
Proof.
  destruct (strip line) as [|c r] eqn:Hs.
  { left. split; [reflexivity|]. now apply step_blank. }
  assert (Hne : strip line <> []) by (rewrite Hs; discriminate).
  rewrite <- Hs. clear Hs c r. right.
  destruct (in_json s) eqn:Hj.
  - right. right. right.
    rewrite (step_accumulating json_loads generate_pdf OUTPUT_DIR s line Hne Hj).
    cbv zeta. cbn [brace_balance append_line count_line].
    destruct (brace_balance s + fst (count_braces_ignoring_strings line) <=? 0)%Z
      eqn:Hb.
    + right. apply Z.leb_le in Hb. repeat (split; [first [assumption|reflexivity]|]); reflexivity.
    + left. apply Z.leb_gt in Hb. repeat (split; [first [assumption|reflexivity]|]); reflexivity.
  - rewrite (step_idle json_loads generate_pdf OUTPUT_DIR s line Hne Hj).
    destruct (snd (count_braces_ignoring_strings line)) eqn:Ho.
    + left. repeat (split; [first [assumption|reflexivity]|]); reflexivity.
    + right. destruct (qualifies line) eqn:Hq.
      * left. repeat (split; [first [assumption|reflexivity]|]); reflexivity.
      * right. left. repeat (split; [first [assumption|reflexivity]|]); reflexivity.
Qed.

(** The ways the closing of a buffer can end. *)
Lemma finalize_cases s :
  (exists msg,
      json_loads (full_text (buffer s)) = JSONDecodeError msg /\
      finalize_ s =
        Normal (set_title (lit "Untitled")
                  (emit (LogParseError (lines_read s)
                           (firstn 50 (full_text (buffer s))) msg)
                     (leave_json s)))) \/
  (exists data e,
      json_loads (full_text (buffer s)) = Decoded data /\
      is_valid_record data = Raise e /\
      finalize_ s =
        Uncaught e (emit (Handed (potential_title s) data) (leave_json s))) \/
  (exists data,
      json_loads (full_text (buffer s)) = Decoded data /\
      is_valid_record data = Return false /\
      finalize_ s =
        Normal (set_title (lit "Untitled")
                  (emit (LogSkipped (lines_read s))
                     (emit (Handed (potential_title s) data) (leave_json s))))) \/
  (exists data s1,
      json_loads (full_text (buffer s)) = Decoded data /\
      is_valid_record data = Return true /\
      render_ data (emit (Handed (potential_title s) data) (leave_json s))
        = Normal s1 /\
      finalize_ s = Normal (set_title (lit "Untitled") s1)).
Proof.
  unfold finalize. simpl buffer.
  destruct (json_loads (full_text (buffer s))) as [data|msg] eqn:Hd.
  - right. destruct (is_valid_record data) as [[|]|e] eqn:Hv.
    + right. right.
      destruct (render_record_normal generate_pdf OUTPUT_DIR data
                  (emit (Handed (potential_title (leave_json s)) data)
                     (leave_json s))) as (s1 & Hr & _).
      exists data, s1. rewrite Hr.
      split; [reflexivity|]. split; [exact Hv|]. split; [exact Hr|].
      reflexivity.
    + right. left. exists data.
      split; [reflexivity|]. split; [exact Hv|]. reflexivity.
    + left. exists data, e.
      split; [reflexivity|]. split; [exact Hv|]. reflexivity.
  - left. exists msg. split; reflexivity.
Qed.

(** What a rendering leaves behind. *)
Lemma render_cases data s :
  exists k ok fs,
    path_exists (files s)
      (path_join OUTPUT_DIR
         (candidate (clean_filename (potential_title s)) k)) = false /\
    generate_pdf data
      (path_join OUTPUT_DIR (candidate (clean_filename (potential_title s)) k))
      (potential_title s) (files s) = (ok, fs) /\
    exists s',
      render_ data s = Normal s' /\
      files s' = fs /\
      records_created s' = (if ok then S (records_created s)
                            else records_created s) /\
      documents (events s') =
        documents (events s) ++
        (if ok
         then [path_join OUTPUT_DIR
                 (candidate (clean_filename (potential_title s)) k)]
         else []) /\
      handed (events s') = handed (events s).
Proof.
  unfold render_record.
  destruct (allocate_total (files s) OUTPUT_DIR
              (clean_filename (potential_title s))) as (k & -> & Hfree & _).
  exists k.
  destruct (generate_pdf data _ (potential_title s) (files s)) as [ok fs]
    eqn:Hg.
  exists ok, fs. split; [exact Hfree|]. split; [reflexivity|].
  destruct ok.
  - match goal with |- context [if ?b then _ else _] => destruct b end;
      eexists; (split; [reflexivity|]); simpl;
      rewrite ?documents_app, ?handed_app; simpl;
      rewrite ?app_nil_r; repeat split.
  - eexists; (split; [reflexivity|]); simpl;
      rewrite ?documents_app, ?handed_app; simpl;
      rewrite ?app_nil_r; repeat split.
Qed.

End RunInvariants.

Section RunProperties.

Variable json_loads : str -> decoded.
Variable generate_pdf : json -> str -> str -> list str -> bool * list str.
Variable OUTPUT_DIR : str.

Local Abbreviation step_ := (step json_loads generate_pdf OUTPUT_DIR).
Local Abbreviation finalize_ := (finalize json_loads generate_pdf OUTPUT_DIR).
Local Abbreviation render_ := (render_record generate_pdf OUTPUT_DIR).
Local Abbreviation run_ := (run json_loads generate_pdf OUTPUT_DIR).
Local Abbreviation process_ :=
  (process_file json_loads generate_pdf OUTPUT_DIR).
Local Abbreviation step_cases_ :=
  (step_cases json_loads generate_pdf OUTPUT_DIR).
Local Abbreviation finalize_cases_ :=
  (finalize_cases json_loads generate_pdf OUTPUT_DIR).
Local Abbreviation finalize_frame_ :=
  (finalize_frame json_loads generate_pdf OUTPUT_DIR).

Lemma step_lines_read s line :
  lines_read (state_of (step_ s line)) = S (lines_read s).
Proof.
  destruct (step_cases_ s line)
    as [(_ & H) | [(_ & _ & _ & H) | [(_ & _ & _ & H) | [(_ & _ & H)
        | [(_ & _ & _ & H) | (_ & _ & _ & H)]]]]]; rewrite H; try reflexivity.
  destruct (finalize_frame_
              (append_line line (fst (count_braces_ignoring_strings line))
                 (count_line s))) as (_ & _ & _ & Hl).
  rewrite Hl. reflexivity.
Qed.

Lemma run_lines_read lines : forall s,
  match run_ s lines with
  | Normal s' => lines_read s' = lines_read s + List.length lines
  | Uncaught _ s' | Diverged s' =>
      lines_read s < lines_read s' <= lines_read s + List.length lines
  end.
Proof.
  induction lines as [|l lines IH]; intros s; simpl; [lia|].
  pose proof (step_lines_read s l) as Hl.
  destruct (step_ s l) as [s'|e s'|s']; simpl in Hl; try lia.
  specialize (IH s'). destruct (run_ s' lines); lia.
Qed.

Lemma step_not_diverged s line s' : step_ s line <> Diverged s'.
Proof.
  destruct (step_cases_ s line)
    as [(_ & H) | [(_ & _ & _ & H) | [(_ & _ & _ & H) | [(_ & _ & H)
        | [(_ & _ & _ & H) | (_ & _ & _ & H)]]]]]; rewrite H; try discriminate.
  destruct (finalize_cases_
              (append_line line (fst (count_braces_ignoring_strings line))
                 (count_line s)))
    as [(msg & _ & Hf) | [(data & e & _ & _ & Hf) | [(data & _ & _ & Hf)
        | (data & s2 & _ & _ & _ & Hf)]]]; rewrite Hf; discriminate.
Qed.

(** A run that does not get through its lines stopped at one of them: the
    lines before it went through, and the counter is its number. *)
Lemma run_stops lines : forall s0,
  match run_ s0 lines with
  | Normal _ => True
  | o =>
      exists before line after s1,
        lines = before ++ line :: after /\
        run_ s0 before = Normal s1 /\
        step_ s1 line = o /\
        lines_read (state_of o) = lines_read s0 + S (List.length before)
  end.
Proof.
  induction lines as [|l lines IH]; intros s0; [exact I|].
  cbn [run]. pose proof (step_lines_read s0 l) as Hl.
  destruct (step_ s0 l) as [s'|e s'|s'] eqn:Hstep.
  - specialize (IH s'). simpl in Hl.
    destruct (run_ s' lines) as [s2|e s2|s2]; [exact I|..];
      destruct IH as (before & line & after & s1 & -> & Hrun & Hs & Hn);
      exists (l :: before), line, after, s1;
      (split; [reflexivity|]); (split; [cbn [run]; now rewrite Hstep|]);
      (split; [exact Hs|]); simpl in *; lia.
  - exists [], l, lines, s0. repeat split; [exact Hstep|simpl in *; lia].
  - exists [], l, lines, s0. repeat split; [exact Hstep|simpl in *; lia].
Qed.

(** X3.  The line counter counts every line of the input, blank or not.
    When the run gets through the input it equals the number of lines.  When
    an exception ends the run it is the number of the line at which that
    happened: all the lines before that one went through, and the exception
    came out of the handling of that line.  The loop has no other way of
    ending. *)
Theorem lines_read_counts_lines (fs : list str) (lines : list str) :
  (forall s, process_ fs lines = Normal s ->
             lines_read s = List.length lines) /\
  (forall e s,
      process_ fs lines = Uncaught e s ->
      exists before line after s1,
        lines = before ++ line :: after /\
        process_ fs before = Normal s1 /\
        step_ s1 line = Uncaught e s /\
        lines_read s = S (List.length before)) /\
  (forall s, process_ fs lines <> Diverged s).
Proof.
  unfold process_file.
  pose proof (run_lines_read lines (initial fs)) as Hn.
  pose proof (run_stops lines (initial fs)) as Hs.
  split; [|split].
  - intros s H. rewrite H in Hn. exact Hn.
  - intros e s H. rewrite H in Hs.
    destruct Hs as (before & line & after & s1 & Heq & Hrun & Hstep & Hl).
    exists before, line, after, s1. repeat split; assumption.
  - intros s H. rewrite H in Hs.
    destruct Hs as (before & line & after & s1 & _ & _ & Hstep & _).
    now apply step_not_diverged in Hstep.
Qed.

Lemma step_keeps_count s line :
  records_created s = List.length (documents (events s)) ->
  records_created (state_of (step_ s line))
  = List.length (documents (events (state_of (step_ s line)))).
Proof.
  intros Hs.
  destruct (step_cases_ s line)
    as [(_ & H) | [(_ & _ & _ & H) | [(_ & _ & _ & H) | [(_ & _ & H)
        | [(_ & _ & _ & H) | (_ & _ & _ & H)]]]]]; rewrite H; try exact Hs.
  set (s1 := append_line line (fst (count_braces_ignoring_strings line))
               (count_line s)).
  destruct (finalize_cases_ s1)
    as [(msg & _ & Hf) | [(data & e & _ & _ & Hf) | [(data & _ & _ & Hf)
        | (data & s2 & _ & _ & Hr & Hf)]]]; rewrite Hf; simpl;
    rewrite ?documents_app; simpl; rewrite ?app_nil_r; try exact Hs.
  destruct (render_cases generate_pdf OUTPUT_DIR data
              (emit (Handed (potential_title s1) data) (leave_json s1)))
    as (k & ok & fs & _ & _ & s3 & Hr3 & _ & Hc & Hd & _).
  rewrite Hr in Hr3. injection Hr3 as <-.
  rewrite Hc, Hd. simpl. rewrite documents_app, length_app. simpl.
  rewrite app_nil_r.
  destruct ok; simpl; lia.
Qed.

(** X4.  The counter of generated documents is the number of renderings
    that succeeded: a rendering that fails, a record that is turned down and
    a text that does not decode leave it as it is. *)
Theorem records_created_counts_documents (fs : list str) (lines : list str) :
  records_created (state_of (process_ fs lines))
  = List.length (documents (events (state_of (process_ fs lines)))).
Proof.
  unfold process_file.
  apply (run_invariant json_loads generate_pdf OUTPUT_DIR
           (fun s => records_created s = List.length (documents (events s)))).
  - apply step_keeps_count.
  - reflexivity.
Qed.

Lemma net_sum_firstn_app k (a b : list str) :
  k <= List.length a -> firstn k (a ++ b) = firstn k a.
Proof.
  intros Hk. rewrite firstn_app.
  replace (k - List.length a) with 0 by lia.
  rewrite firstn_0. apply app_nil_r.
Qed.

Lemma step_keeps_buffer s line :
  buffer_ok s -> buffer_ok (state_of (step_ s line)).
Proof.
  intros (Hsum & Hall & Hfirst & Hin & Hout).
  destruct (step_cases_ s line)
    as [(_ & H) | [(Hne & Hj & Ho & H) | [(_ & Hj & _ & H) | [(_ & Hj & H)
        | [(Hne & Hj & Hb & H) | (Hne & Hj & Hb & H)]]]]]; rewrite H.
  - exact (conj Hsum (conj Hall (conj Hfirst (conj Hin Hout)))).
  - cbn [state_of]. unfold buffer_ok.
    cbn [buffer brace_balance in_json open_buffer count_line].
    split; [cbn [net_sum]; lia|].
    split; [constructor; [exact Hne|constructor]|].
    split; [intros first rest Heq; injection Heq as <- _; exact Ho|].
    split; [|discriminate]. intros _. split; [discriminate|].
    intros k Hk. simpl in Hk. lia.
  - exact (conj Hsum (conj Hall (conj Hfirst (conj Hin Hout)))).
  - exact (conj Hsum (conj Hall (conj Hfirst (conj Hin Hout)))).
  - destruct (Hin Hj) as [Hbuf Hpre].
    cbn [state_of]. unfold buffer_ok.
    cbn [buffer brace_balance in_json append_line count_line].
    split; [rewrite net_sum_app, Hsum; cbn [net_sum]; lia|].
    split; [apply Forall_app; split;
            [exact Hall|constructor; [exact Hne|constructor]]|].
    split.
    { intros first rest Heq. destruct (buffer s) as [|f r] eqn:Hbs;
        [congruence|]. injection Heq as <- _. now apply (Hfirst f r). }
    split; [|congruence]. intros _. split.
    { destruct (buffer s); [congruence|discriminate]. }
    intros k Hk. rewrite length_app in Hk. simpl in Hk.
    destruct (Nat.le_gt_cases k (List.length (buffer s))) as [Hle|Hgt].
    + rewrite (net_sum_firstn_app k _ _ Hle). apply Hpre. lia.
    + rewrite firstn_all2 by (rewrite length_app; simpl; lia).
      rewrite net_sum_app, <- Hsum. cbn [net_sum]. lia.
  - destruct (Hin Hj) as [Hbuf Hpre].
    set (s1 := append_line line (fst (count_braces_ignoring_strings line))
                 (count_line s)).
    destruct (finalize_frame_ s1) as (Hb1 & Hn1 & Hj1 & _).
    unfold buffer_ok. rewrite Hb1, Hn1, Hj1.
    cbn [buffer brace_balance in_json append_line count_line s1].
    split; [rewrite net_sum_app, Hsum; cbn [net_sum]; lia|].
    split; [apply Forall_app; split;
            [exact Hall|constructor; [exact Hne|constructor]]|].
    split.
    { intros first rest Heq. destruct (buffer s) as [|f r] eqn:Hbs;
        [congruence|]. injection Heq as <- _. now apply (Hfirst f r). }
    split; [discriminate|]. intros _. right.
    split.
    { rewrite length_app. simpl. destruct (buffer s); [congruence|simpl; lia]. }
    split; [exact Hb|].
    intros k Hk. rewrite length_app in Hk. simpl in Hk.
    rewrite (net_sum_firstn_app k _ _) by lia. apply Hpre. lia.
Qed.

(** X5.  Between two lines the balance is the sum of the net changes of
    the lines in the buffer (zero while nothing was opened yet); the buffer
    holds no blank line and starts with a line on which the scanner saw an
    opening brace.  Inside an object every beginning of the buffer of two
    lines or more has a sum above zero.  Outside, the buffer is empty or is
    the one closed last, which has at least two lines and was closed at the
    first line after its opening line that brought the sum to zero or
    below. *)
Theorem buffer_invariant (fs : list str) (lines : list str) :
  buffer_ok (state_of (process_ fs lines)).
Proof.
  unfold process_file.
  apply (run_invariant json_loads generate_pdf OUTPUT_DIR buffer_ok).
  - apply step_keeps_buffer.
  - unfold buffer_ok. simpl. split; [reflexivity|].
    split; [constructor|]. split; [discriminate|].
    split; [discriminate|]. intros _. now left.
Qed.

Lemma step_keeps_titles s line :
  title_ok (potential_title s) /\
  Forall (fun p => title_ok (fst p)) (handed (events s)) ->
  title_ok (potential_title (state_of (step_ s line))) /\
  Forall (fun p => title_ok (fst p)) (handed (events (state_of (step_ s line)))).
Proof.
  intros [Ht He].
  destruct (step_cases_ s line)
    as [(_ & H) | [(_ & _ & _ & H) | [(_ & _ & Hq & H) | [(_ & _ & H)
        | [(_ & _ & _ & H) | (_ & _ & _ & H)]]]]]; rewrite H;
    try (split; assumption).
  - split; [|exact He]. now apply title_ok_qualifies.
  - set (s1 := append_line line (fst (count_braces_ignoring_strings line))
                 (count_line s)).
    assert (Hh : forall data,
               Forall (fun p => title_ok (fst p))
                 (handed (events s1) ++ [(potential_title s1, data)])).
    { intros data. apply Forall_app. split; [exact He|].
      constructor; [exact Ht|constructor]. }
    destruct (finalize_cases_ s1)
      as [(msg & _ & Hf) | [(data & e & _ & _ & Hf) | [(data & _ & _ & Hf)
          | (data & s2 & _ & _ & Hr & Hf)]]]; rewrite Hf; simpl.
    + split; [apply title_ok_sentinel|].
      rewrite handed_app. simpl. now rewrite app_nil_r.
    + split; [exact Ht|]. rewrite handed_app. apply Hh.
    + split; [apply title_ok_sentinel|].
      rewrite !handed_app. simpl. rewrite app_nil_r. apply Hh.
    + split; [apply title_ok_sentinel|].
      destruct (render_cases generate_pdf OUTPUT_DIR data
                  (emit (Handed (potential_title s1) data) (leave_json s1)))
        as (k & ok & fs & _ & _ & s3 & Hr3 & _ & _ & _ & Hh3).
      rewrite Hr in Hr3. injection Hr3 as <-.
      rewrite Hh3. simpl. rewrite handed_app. apply Hh.
Qed.

(** X7.  The pending title is never empty: at every point of a run, and
    for every record handed to validation, it is a text without braces,
    shorter than 150 characters and without white space at either end.  So
    [clean_filename] never takes its branch for the empty title during a run,
    and the heading of a document is always the pending title, never the
    name of the record. *)
Theorem pending_title_never_empty (fs : list str) (lines : list str) :
  let s := state_of (process_ fs lines) in
  title_ok (potential_title s) /\
  Forall (fun p => title_ok (fst p)) (handed (events s)) /\
  clean_filename (potential_title s)
    = firstn 100 (strip (sanitize (potential_title s))) /\
  (forall items, display_title items (potential_title s)
                 = JStr (potential_title s)).
Proof.
  cbv zeta. unfold process_file.
  assert (H : title_ok (potential_title (state_of (run_ (initial fs) lines))) /\
              Forall (fun p => title_ok (fst p))
                (handed (events (state_of (run_ (initial fs) lines))))).
  { apply (run_invariant json_loads generate_pdf OUTPUT_DIR
             (fun s => title_ok (potential_title s) /\
                       Forall (fun p => title_ok (fst p)) (handed (events s)))).
    - apply step_keeps_titles.
    - split; [apply title_ok_sentinel|constructor]. }
  destruct H as [Ht Hh]. split; [exact Ht|]. split; [exact Hh|].
  destruct Ht as [Hne _].
  destruct (potential_title (state_of (run_ (initial fs) lines)));
    [congruence|]. split; reflexivity.
Qed.

Lemma step_keeps_files fs0 s line :
  writes_its_file generate_pdf ->
  files_ok fs0 s -> files_ok fs0 (state_of (step_ s line)).
Proof.
  intros Hw (Hf0 & Hdocs & Hnd & Hnew).
  destruct (step_cases_ s line)
    as [(_ & H) | [(_ & _ & _ & H) | [(_ & _ & _ & H) | [(_ & _ & H)
        | [(_ & _ & _ & H) | (_ & _ & _ & H)]]]]]; rewrite H;
    try (repeat split; assumption).
  set (s1 := append_line line (fst (count_braces_ignoring_strings line))
               (count_line s)).
  destruct (finalize_cases_ s1)
    as [(msg & _ & Hf) | [(data & e & _ & _ & Hf) | [(data & _ & _ & Hf)
        | (data & s2 & _ & _ & Hr & Hf)]]]; rewrite Hf; unfold files_ok; simpl;
    rewrite ?documents_app; simpl; rewrite ?app_nil_r;
    try (repeat split; assumption).
  destruct (render_cases generate_pdf OUTPUT_DIR data
              (emit (Handed (potential_title s1) data) (leave_json s1)))
    as (k & ok & fs & Hfree & Hg & s3 & Hr3 & Hfs & _ & Hd & _).
  rewrite Hr in Hr3. injection Hr3 as <-.
  simpl in Hfree, Hg, Hd. rewrite documents_app in Hd. simpl in Hd.
  rewrite app_nil_r in Hd. rewrite Hfs, Hd.
  set (p := path_join OUTPUT_DIR
              (candidate (clean_filename (potential_title s)) k)) in *.
  destruct (Hw data p (potential_title s) (files s)) as [Hkeep Hwritten].
  rewrite Hg in Hkeep, Hwritten. simpl in Hkeep, Hwritten.
  assert (Hp : ~ In p (files s)).
  { intros Hin. apply path_exists_In in Hin. rewrite Hin in Hfree.
    discriminate Hfree. }
  destruct ok; simpl.
  - repeat split.
    + intros x Hx. apply Hkeep, Hf0, Hx.
    + intros x Hx. apply in_app_or in Hx as [Hx|[<-|[]]].
      * apply Hkeep, Hdocs, Hx.
      * now apply Hwritten.
    + apply NoDup_app; [exact Hnd|constructor; [intros []|constructor]|].
      intros x Hx [<-|[]]. apply Hp, Hdocs, Hx.
    + apply Forall_app. split; [exact Hnew|].
      constructor; [|constructor]. intros Hin. apply Hp, Hf0, Hin.
  - rewrite app_nil_r. repeat split; try assumption.
    + intros x Hx. apply Hkeep, Hf0, Hx.
    + intros x Hx. apply Hkeep, Hdocs, Hx.
Qed.

(** X8.  With a renderer that keeps the files there are and writes its own
    file when it succeeds, the documents of a run are pairwise different
    paths and none of them is a file that was there before the run: no
    document is written over another one or over an older file. *)
Theorem documents_never_overwritten (fs : list str) (lines : list str) :
  writes_its_file generate_pdf ->
  NoDup (documents (events (state_of (process_ fs lines)))) /\
  Forall (fun p => ~ In p fs)
    (documents (events (state_of (process_ fs lines)))).
Proof.
  intros Hw. unfold process_file.
  assert (H : files_ok fs (state_of (run_ (initial fs) lines))).
  { apply (run_invariant json_loads generate_pdf OUTPUT_DIR (files_ok fs)).
    - intros s line. now apply step_keeps_files.
    - repeat split.
      + apply incl_refl.
      + intros x [].
      + constructor.
      + constructor. }
  destruct H as (_ & _ & Hnd & Hnew). split; assumption.
Qed.



End RunProperties.


Lemma lines_read_counts_lines_witness :
  let through := [ln "Title A"; [nl]; ln "{"; ln "'name': 'X'"; ln "}"] in
  let s := state_of (process_file Sample.loads Sample.writes (lit "out") []
                       through) in
  let r := state_of (process_file Sample.loads Sample.writes (lit "out") []
                       numeric_questions_input) in
  (process_file Sample.loads Sample.writes (lit "out") [] through = Normal s /\
   lines_read s = List.length through) /\
  (process_file Sample.loads Sample.writes (lit "out") []
     numeric_questions_input = Uncaught TypeError r /\
   exists before line after s1,
     numeric_questions_input = before ++ line :: after /\
     process_file Sample.loads Sample.writes (lit "out") [] before
       = Normal s1 /\
     step Sample.loads Sample.writes (lit "out") s1 line
       = Uncaught TypeError r /\
     lines_read r = S (List.length before)).
Proof.
  cbv zeta. split.
  - split; [vm_compute; reflexivity|].
    apply (proj1 (lines_read_counts_lines Sample.loads Sample.writes
                    (lit "out") [] _)).
    vm_compute. reflexivity.
  - split; [vm_compute; reflexivity|].
    apply (proj1 (proj2 (lines_read_counts_lines Sample.loads Sample.writes
                           (lit "out") [] _))).
    vm_compute. reflexivity.
Defined.

Lemma sample_writes_its_file : writes_its_file Sample.writes.
Proof.
  intros data path title fs. simpl. split.
  - intros x Hx. now right.
  - intros _. now left.
Qed.

Lemma documents_never_overwritten_witness :
  let lines := [ln "Title A"; ln "{"; ln "'name': 'first'"; ln "}";
                ln "Title A"; ln "{"; ln "'name': 'second'"; ln "}"] in
  writes_its_file Sample.writes /\
  NoDup (documents (events (state_of
    (process_file Sample.loads Sample.writes (lit "out")
       [lit "out/Title A.pdf"] lines)))) /\
  Forall (fun p => ~ In p [lit "out/Title A.pdf"])
    (documents (events (state_of
      (process_file Sample.loads Sample.writes (lit "out")
         [lit "out/Title A.pdf"] lines)))).
Proof.
  cbv zeta. split; [exact sample_writes_its_file|].
  apply documents_never_overwritten. exact sample_writes_its_file.
Defined.

(** ** The path of a document *)

Lemma not_In_contains c s : ~ In c s -> contains c s = false.
Proof.
  intros H. destruct (contains c s) eqn:Hc; [|reflexivity].
  apply contains_In in Hc. contradiction.
Qed.

Lemma clean_filename_no_separator title :
  contains "/" (clean_filename title) = false.
Proof.
  unfold clean_filename. destruct title as [|c r]; [reflexivity|].
  apply not_In_contains. intros Hin.
  assert (Hs : In "/" (strip (sanitize (c :: r)))).
  { rewrite <- (firstn_skipn 100 (strip (sanitize (c :: r)))).
    apply in_or_app. now left. }
  apply strip_In in Hs. unfold sanitize in Hs.
  apply filter_In in Hs as [_ Hs]. discriminate Hs.
Qed.

Lemma uint_no_separator d :
  contains "/" (lit (DecimalString.NilEmpty.string_of_uint d)) = false.
Proof.
  unfold lit.
  induction d;
    cbn [DecimalString.NilEmpty.string_of_uint list_ascii_of_string];
    try reflexivity; rewrite contains_cons, IHd; reflexivity.
Qed.

Lemma candidate_no_separator safe k :
  contains "/" safe = false -> contains "/" (candidate safe k) = false.
Proof.
  intros Hs. rewrite candidate_suffix, contains_app, Hs.
  destruct k as [|k]; [reflexivity|].
  unfold suffix. rewrite contains_cons, contains_app.
  unfold decimal. rewrite uint_no_separator. reflexivity.
Qed.

(** X9.  The file name chosen for a record ends in [.pdf] and holds no
    path separator, whatever the title is, so the path handed to the renderer
    is the output directory, a separator where the directory does not end in
    one, and that name: a title cannot lead out of the output directory.  The
    path is one that does not exist. *)
Theorem out_path_stays_in_directory (fs : list str) (od title : str) :
  exists fname stem,
    allocate fs od (clean_filename title) = Some fname /\
    fname = stem ++ lit ".pdf" /\
    contains "/" fname = false /\
    path_exists fs (path_join od fname) = false /\
    path_join od fname =
      match od with
      | [] => fname
      | _ :: _ => if endswith "/" od then od ++ fname else od ++ "/" :: fname
      end.
Proof.
  destruct (allocate_total fs od (clean_filename title)) as (k & Ha & Hfree & _).
  pose proof (candidate_no_separator _ k (clean_filename_no_separator title))
    as Hno.
  exists (candidate (clean_filename title) k).
  exists (match k with
          | O => clean_filename title
          | S _ => clean_filename title ++ "_" :: decimal k
          end).
  split; [exact Ha|]. split.
  { destruct k; simpl; [reflexivity|].
    rewrite <- app_assoc. reflexivity. }
  split; [exact Hno|]. split; [exact Hfree|].
  unfold path_join.
  destruct (candidate (clean_filename title) k) as [|c r] eqn:Hc.
  - reflexivity.
  - rewrite contains_cons in Hno. apply orb_false_iff in Hno as [Hc1 _].
    simpl startswith. rewrite Hc1. reflexivity.
Qed.

(** ** When the validator raises *)

(** X10.  The validator raises exactly for a mapping that is not empty and
    has a [questions] entry without a length (a number, a boolean or null),
    also when its [name] entry alone would make it a record; for every other
    value it returns a verdict. *)
Theorem is_valid_record_raises_iff (data : json) (e : exn) :
  is_valid_record data = Raise e <->
  exists items q,
    data = JDict items /\ items <> [] /\
    lookup (lit "questions") items = Some q /\ ~ has_length q.
Proof.
  split.
  - intros H. destruct data as [| | | | | |items]; try discriminate H.
    destruct items as [|kv rest]; [discriminate H|].
    remember (kv :: rest) as items eqn:Hi.
    assert (Hne : items <> []) by (rewrite Hi; discriminate).
    clear Hi kv rest.
    rewrite (is_valid_record_nonempty items Hne) in H.
    unfold has_questions in H.
    destruct (lookup (lit "questions") items) as [q|] eqn:Hq;
      [|discriminate H].
    exists items, q. repeat split; try assumption.
    intros Hl. destruct q; simpl in Hl; try contradiction; discriminate H.
  - intros (items & q & -> & Hne & Hq & Hl).
    rewrite (is_valid_record_nonempty items Hne).
    unfold has_questions. rewrite Hq.
    destruct e. destruct q; simpl in *; try reflexivity; exfalso; now apply Hl.
Qed.

(** ** Escaped text *)

Lemma replace_char c new s :
  replace [c] new s
  = flat_map (fun d => if Ascii.eqb d c then new else [d]) s.
Proof.
  unfold replace. induction s as [|d s IH]; [reflexivity|].
  cbn [replace_from flat_map startswith List.length].
  rewrite andb_true_r, (Ascii.eqb_sym c d), IH.
  destruct (Ascii.eqb d c); reflexivity.
Qed.

Lemma flat_map_flat_map (f g : ascii -> str) s :
  flat_map f (flat_map g s) = flat_map (fun c => flat_map f (g c)) s.
Proof.
  induction s as [|c s IH]; [reflexivity|].
  simpl. now rewrite flat_map_app, IH.
Qed.

(** The special characters, and the others. *)
Lemma escape_char_cases c :
  (c = "&" /\ escape_char c = lit "&amp;") \/
  (c = "<" /\ escape_char c = lit "&lt;") \/
  (c = ">" /\ escape_char c = lit "&gt;") \/
  (c = nl /\ escape_char c = lit "<br/>") \/
  (Ascii.eqb c "&" = false /\ Ascii.eqb c "<" = false /\
   Ascii.eqb c ">" = false /\ Ascii.eqb c nl = false /\
   escape_char c = [c]).
Proof.
  unfold escape_char.
  destruct (Ascii.eqb c "&") eqn:H1;
    [apply Ascii.eqb_eq in H1; left; now subst|].
  destruct (Ascii.eqb c "<") eqn:H2;
    [apply Ascii.eqb_eq in H2; right; left; now subst|].
  destruct (Ascii.eqb c ">") eqn:H3;
    [apply Ascii.eqb_eq in H3; right; right; left; now subst|].
  destruct (Ascii.eqb c nl) eqn:H4;
    [apply Ascii.eqb_eq in H4; right; right; right; left; now subst|].
  right. right. right. right. repeat split.
Qed.

Lemma escape_markup_per_character_eq s :
  escape_markup s = flat_map escape_char s.
Proof.
  unfold escape_markup. rewrite !replace_char, !flat_map_flat_map.
  apply flat_map_ext. intros c.
  destruct (escape_char_cases c)
    as [[-> ->] | [[-> ->] | [[-> ->] | [[-> ->] | (H1 & H2 & H3 & H4 & ->)]]]];
    try reflexivity.
  rewrite H1. cbn [flat_map app]. rewrite H2. cbn [flat_map app].
  rewrite H3. cbn [flat_map app]. rewrite H4. reflexivity.
Qed.

(** X12.  [clean_text] escapes each character of a text on its own: an
    ampersand, an angle bracket or a line feed becomes its entity or the
    break tag and every other character stays, so the four replacements of
    line 29 never escape what an earlier one of them produced. *)
Theorem escape_markup_per_character (py_repr : json -> str) (s : str) :
  escape_markup s = flat_map escape_char s /\
  clean_text py_repr (JStr s) = flat_map escape_char s /\
  clean_text py_repr JNull = [].
Proof.
  split; [apply escape_markup_per_character_eq|].
  split; [apply escape_markup_per_character_eq|reflexivity].
Qed.

Lemma count_flat_map c (f : ascii -> str) s :
  count c (flat_map f s)
  = fold_right (fun d n => count c (f d) + n) 0 s.
Proof.
  induction s as [|d s IH]; [reflexivity|].
  simpl. now rewrite count_app, IH.
Qed.

Lemma count_single c d : count c [d] = if Ascii.eqb d c then 1 else 0.
Proof. cbn [count]. destruct (Ascii.eqb d c); reflexivity. Qed.

Lemma count_escape_char c :
  count nl (escape_char c) = 0 /\
  count "<" (escape_char c) = (if Ascii.eqb c nl then 1 else 0) /\
  count ">" (escape_char c) = (if Ascii.eqb c nl then 1 else 0) /\
  count "&" (escape_char c)
  = (if Ascii.eqb c "&" then 1 else 0) + (if Ascii.eqb c "<" then 1 else 0)
    + (if Ascii.eqb c ">" then 1 else 0).
Proof.
  destruct (escape_char_cases c)
    as [[-> ->] | [[-> ->] | [[-> ->] | [[-> ->] | (H1 & H2 & H3 & H4 & ->)]]]];
    try (repeat split; reflexivity).
  rewrite !count_single, H1, H2, H3, H4. repeat split.
Qed.

(** X13.  Escaped text holds no line feed, and it holds an opening and a
    closing angle bracket only as the two ends of a break tag: as many of
    each as the text had line feeds.  Its ampersands are those that start an
    entity: one for each ampersand and each angle bracket of the text. *)
Theorem escape_markup_safe (s : str) :
  count nl (escape_markup s) = 0 /\
  count "<" (escape_markup s) = count nl s /\
  count ">" (escape_markup s) = count nl s /\
  count "&" (escape_markup s) = count "&" s + count "<" s + count ">" s.
Proof.
  rewrite escape_markup_per_character_eq.
  induction s as [|c s (IH1 & IH2 & IH3 & IH4)]; [repeat split|].
  cbn [flat_map]. rewrite !count_app, IH1, IH2, IH3, IH4.
  destruct (count_escape_char c) as (-> & -> & -> & ->).
  cbn [count]. repeat split; lia.
Qed.

Lemma escape_char_prefix c d x y :
  escape_char c ++ x = escape_char d ++ y -> c = d /\ x = y.
Proof.
  intros H.
  destruct (escape_char_cases c)
    as [[-> Hc] | [[-> Hc] | [[-> Hc] | [[-> Hc] | (C1 & C2 & C3 & C4 & Hc)]]]];
    destruct (escape_char_cases d)
      as [[-> Hd] | [[-> Hd] | [[-> Hd] | [[-> Hd]
          | (D1 & D2 & D3 & D4 & Hd)]]]];
    rewrite ?Hc, ?Hd in H; cbn in H; try discriminate H;
    injection H; intros; subst; try (split; reflexivity); exfalso;
    match goal with
    | Hx : Ascii.eqb ?a ?a = false |- _ =>
        rewrite Ascii.eqb_refl in Hx; discriminate Hx
    end.
Qed.

Lemma escape_char_nonempty c : escape_char c <> [].
Proof.
  destruct (escape_char_cases c)
    as [[_ ->] | [[_ ->] | [[_ ->] | [[_ ->] | (_ & _ & _ & _ & ->)]]]];
    discriminate.
Qed.

Lemma flat_map_escape_inj a : forall b,
  flat_map escape_char a = flat_map escape_char b -> a = b.
Proof.
  induction a as [|c a IH]; intros b H; destruct b as [|d b].
  - reflexivity.
  - exfalso. cbn [flat_map] in H. symmetry in H.
    apply app_eq_nil in H as [H _]. now apply escape_char_nonempty in H.
  - exfalso. cbn [flat_map] in H.
    apply app_eq_nil in H as [H _]. now apply escape_char_nonempty in H.
  - cbn [flat_map] in H. apply escape_char_prefix in H as [-> H].
    f_equal. now apply IH.
Qed.

Lemma escape_markup_injective_eq a b :
  escape_markup a = escape_markup b -> a = b.
Proof.
  rewrite !escape_markup_per_character_eq. apply flat_map_escape_inj.
Qed.

(** X14.  Escaping loses nothing: two texts with the same escaped text are
    the same text.  A text that spells out an entity or a break tag is
    therefore never taken for the character itself. *)
Theorem escape_markup_injective (a b : str) :
  escape_markup a = escape_markup b -> a = b.
Proof.
  rewrite !escape_markup_per_character_eq. apply flat_map_escape_inj.
Qed.

Lemma escape_markup_injective_witness :
  escape_markup (lit "a<b") = escape_markup (lit "a<b") /\
  escape_markup (lit "&lt;") <> escape_markup (lit "<") /\
  lit "a<b" = lit "a<b".
Proof.
  split; [reflexivity|]. split.
  - intros H. apply escape_markup_injective in H. discriminate H.
  - apply escape_markup_injective. reflexivity.
Defined.

(** ** Deep look-up *)

Lemma get_safe_val_none py_repr keys : get_safe_val py_repr JNull keys = [].
Proof. destruct keys; reflexivity. Qed.

(** X15.  [get_safe_val] follows the keys through nested mappings and
    gives the text of the value at the end; it gives the empty string, and
    raises nothing, when a key is missing, when a value on the way is not a
    mapping, and when the value at the end is null. *)
Theorem get_safe_val_deep_get (py_repr : json -> str) (keys : list str) :
  forall record,
    get_safe_val py_repr record keys =
    match deep_get record keys with
    | None | Some JNull => []
    | Some v => py_str py_repr v
    end.
Proof.
  induction keys as [|k rest IH]; intros record.
  - destruct record; reflexivity.
  - cbn [get_safe_val deep_get].
    destruct record as [| | | | | |items]; try reflexivity.
    unfold get_default. destruct (lookup k items) as [v|].
    + apply IH.
    + apply get_safe_val_none.
Qed.

(** ** The question table *)

Lemma qa_row_ok py_repr q :
  Forall (fun row => fst row <> [] /\ strip (fst row) = fst row /\
                     strip (snd row) = snd row)
    (qa_row py_repr q) /\
  List.length (qa_row py_repr q) <= 1.
Proof.
  unfold qa_row. destruct q as [| | | | | |entry];
    try (split; [constructor|simpl; lia]).
  cbv zeta.
  destruct (strip (py_str py_repr
                     (get_default (lit "question") (JStr []) entry)))
    as [|c r] eqn:Hq.
  - split; [constructor|simpl; lia].
  - split; [|simpl; lia]. constructor; [|constructor]. simpl.
    split; [discriminate|]. split.
    + rewrite <- Hq. apply strip_strip.
    + apply strip_strip.
Qed.

(** X16.  Every row of the question table has a question that is not
    empty, and both of its texts are trimmed.  The table has at most one row
    for each entry of [questions], in the order of the entries; entries that
    are not mappings or whose question is blank are left out; there are no
    rows when [questions] is missing or is not a sequence; and an entry
    whose question is null gets the text [None]. *)
Theorem valid_qa_rows (py_repr : json -> str) (items : list (str * json)) :
  Forall (fun row => fst row <> [] /\ strip (fst row) = fst row /\
                     strip (snd row) = snd row)
    (valid_qa py_repr items) /\
  (forall qs, lookup (lit "questions") items = Some (JList qs) ->
     valid_qa py_repr items = flat_map (qa_row py_repr) qs /\
     List.length (valid_qa py_repr items) <= List.length qs) /\
  ((forall qs, lookup (lit "questions") items <> Some (JList qs)) ->
   valid_qa py_repr items = []) /\
  (forall entry,
     lookup (lit "question") entry = Some JNull ->
     qa_row py_repr (JDict entry) =
     [(lit "None",
       strip (py_str py_repr (get_default (lit "answer") (JStr []) entry)))]).
Proof.
  assert (Hrows : forall qs,
             Forall (fun row => fst row <> [] /\ strip (fst row) = fst row /\
                                strip (snd row) = snd row)
               (flat_map (qa_row py_repr) qs) /\
             List.length (flat_map (qa_row py_repr) qs) <= List.length qs).
  { induction qs as [|q qs [IH1 IH2]]; [split; [constructor|simpl; lia]|].
    cbn [flat_map]. destruct (qa_row_ok py_repr q) as [Hq1 Hq2]. split.
    - apply Forall_app. split; assumption.
    - rewrite length_app. simpl. lia. }
  unfold valid_qa, get_default. split; [|split; [|split]].
  - destruct (lookup (lit "questions") items) as [[| | | | |qs|]|];
      try constructor. apply Hrows.
  - intros qs ->. split; [reflexivity|apply Hrows].
  - intros Hno.
    destruct (lookup (lit "questions") items) as [[| | | | |qs|]|];
      try reflexivity. exfalso. now apply (Hno qs).
  - intros entry He. unfold qa_row, get_default. rewrite He. reflexivity.
Qed.

Lemma valid_qa_rows_witness :
  let items :=
    [(lit "questions",
      JList [JDict [(lit "question", JStr (lit "  Port  "));
                    (lit "answer", JInt 22)];
             JStr (lit "noise");
             JDict [(lit "question", JStr (lit "   "))];
             JDict [(lit "question", JNull)]])] in
  lookup (lit "questions") items
  = Some (JList [JDict [(lit "question", JStr (lit "  Port  "));
                        (lit "answer", JInt 22)];
                 JStr (lit "noise");
                 JDict [(lit "question", JStr (lit "   "))];
                 JDict [(lit "question", JNull)]]) /\
  valid_qa (fun _ => []) items
  = [(lit "Port", lit "22"); (lit "None", [])] /\
  List.length (valid_qa (fun _ => []) items) <= 4.
Proof.
  cbv zeta. split; [reflexivity|]. split; [reflexivity|].
  apply (proj1 (proj2 (valid_qa_rows (fun _ => []) _))
           [JDict [(lit "question", JStr (lit "  Port  "));
                   (lit "answer", JInt 22)];
            JStr (lit "noise");
            JDict [(lit "question", JStr (lit "   "))];
            JDict [(lit "question", JNull)]]).
  reflexivity.
Defined.

(** ** The metadata table *)

Lemma get_safe_val_not_mapping py_repr items key :
  (forall inner, lookup key items <> Some (JDict inner)) ->
  get_safe_val py_repr (JDict items) [key; lit "name"] = [].
Proof.
  intros H. cbn [get_safe_val]. unfold get_default.
  destruct (lookup key items) as [[| | | | | |inner]|]; try reflexivity.
  exfalso. now apply (H inner).
Qed.

Lemma meta_data_In py_repr items label v :
  In (label, v) (meta_data py_repr items) <->
  v <> [] /\
  ((label, v) = (lit "Name:",
                 clean_text py_repr (get_default (lit "name") (JStr []) items)) \/
   exists key,
     In (key, label) [(lit "company", lit "Company:"); (lit "site", lit "Site:");
                      (lit "type", lit "Type:"); (lit "status", lit "Status:")] /\
     v = escape_markup (get_safe_val py_repr (JDict items) [key; lit "name"])).
Proof.
  unfold meta_data. rewrite filter_In. cbn [snd].
  assert (Hv : (match v with [] => false | _ :: _ => true end = true)
               <-> v <> []).
  { destruct v; split; intros H; try discriminate H; try reflexivity;
      congruence. }
  rewrite Hv. split.
  - intros [Hin Hne]. split; [exact Hne|].
    destruct Hin as [H|[H|[H|[H|[H|[]]]]]]; injection H as <- <-.
    + now left.
    + right. exists (lit "company"). split; [now left|reflexivity].
    + right. exists (lit "site"). split; [right; now left|reflexivity].
    + right. exists (lit "type"). split; [right; right; now left|reflexivity].
    + right. exists (lit "status").
      split; [right; right; right; now left|reflexivity].
  - intros [Hne [H|(key & Hk & ->)]]; (split; [|exact Hne]).
    + injection H as -> ->. now left.
    + destruct Hk as [H|[H|[H|[H|[]]]]]; injection H as <- <-.
      * right. now left.
      * right. right. now left.
      * right. right. right. now left.
      * right. right. right. right. now left.
Qed.

(** X17.  The metadata table shows no row with an empty value.  The row of
    the company, the site, the type or the status is there exactly when
    [get_safe_val] finds a text that is not empty under that key and then
    under [name], and it shows that text escaped; so a record that gives one
    of them as something else than a mapping (as a plain string, say) gets no
    row for it. *)
Theorem meta_data_rows (py_repr : json -> str) (items : list (str * json)) :
  Forall (fun row => snd row <> []) (meta_data py_repr items) /\
  (forall key label,
      In (key, label) [(lit "company", lit "Company:"); (lit "site", lit "Site:");
                       (lit "type", lit "Type:"); (lit "status", lit "Status:")] ->
      (In (label, escape_markup
                    (get_safe_val py_repr (JDict items) [key; lit "name"]))
          (meta_data py_repr items) <->
       get_safe_val py_repr (JDict items) [key; lit "name"] <> []) /\
      ((forall inner, lookup key items <> Some (JDict inner)) ->
       forall v, ~ In (label, v) (meta_data py_repr items))).
Proof.
  split.
  - apply Forall_forall. intros [label v] Hin.
    apply meta_data_In in Hin as [Hne _]. exact Hne.
  - intros key label Hk. split.
    + rewrite meta_data_In. split.
      * intros [Hne _] Hempty. rewrite Hempty in Hne. now apply Hne.
      * intros Hne. split.
        -- intros Hempty. apply Hne.
           apply (escape_markup_injective_eq _ []). exact Hempty.
        -- right. exists key. split; [exact Hk|reflexivity].
    + intros Hno v Hin. apply meta_data_In in Hin as [Hne Hrow].
      destruct Hrow as [H|(key' & Hk' & ->)].
      * injection H as Hl _.
        destruct Hk as [H|[H|[H|[H|[]]]]]; injection H as <- <-;
          vm_compute in Hl; discriminate Hl.
      * assert (key' = key).
        { destruct Hk as [H|[H|[H|[H|[]]]]]; injection H as <- <-;
            destruct Hk' as [H|[H|[H|[H|[]]]]]; cbv in H; inversion H;
            reflexivity. }
        subst key'. rewrite (get_safe_val_not_mapping _ _ _ Hno) in Hne.
        now apply Hne.
Qed.

Lemma meta_data_rows_witness :
  let items := [(lit "name", JStr (lit "FW-01"));
                (lit "company", JStr (lit "Acme"));
                (lit "site", JDict [(lit "name", JStr (lit "HQ <1>"))])] in
  In (lit "company", lit "Company:")
    [(lit "company", lit "Company:"); (lit "site", lit "Site:");
     (lit "type", lit "Type:"); (lit "status", lit "Status:")] /\
  (forall inner, lookup (lit "company") items <> Some (JDict inner)) /\
  meta_data (fun _ => []) items
  = [(lit "Name:", lit "FW-01"); (lit "Site:", lit "HQ &lt;1&gt;")] /\
  (forall v, ~ In (lit "Company:", v) (meta_data (fun _ => []) items)).
Proof.
  cbv zeta.
  assert (Hk : In (lit "company", lit "Company:")
                 [(lit "company", lit "Company:"); (lit "site", lit "Site:");
                  (lit "type", lit "Type:"); (lit "status", lit "Status:")])
    by now left.
  assert (Hno : forall inner,
             lookup (lit "company")
               [(lit "name", JStr (lit "FW-01"));
                (lit "company", JStr (lit "Acme"));
                (lit "site", JDict [(lit "name", JStr (lit "HQ <1>"))])]
             <> Some (JDict inner)).
  { intros inner H. vm_compute in H. discriminate H. }
  split; [exact Hk|]. split; [exact Hno|]. split; [reflexivity|].
  exact (proj2 (proj2 (meta_data_rows (fun _ => []) _) _ _ Hk) Hno).
Defined.

Lemma is_valid_record_raises_iff_witness :
  let data := JDict [(lit "name", JStr (lit "X")); (lit "questions", JInt 5)] in
  is_valid_record data = Raise TypeError /\
  exists items q,
    data = JDict items /\ items <> [] /\
    lookup (lit "questions") items = Some q /\ ~ has_length q.
Proof.
  cbv zeta. split; [reflexivity|].
  apply (proj1 (is_valid_record_raises_iff _ TypeError)). reflexivity.
Defined.
